(** * ShardHandler (controller.py): a shallow embedding and its properties

    The Python class [ShardHandler] keeps a dictionary [mapping] (shard or
    replica id to a [{start, end}] range), persists it in [mapping.json] and
    keeps one text file per shard or replica in the directory [data].  The
    methods are embedded as computations of a state-and-exception monad over
    a [world] made of the handler's fields and of the two places on disk. *)

From Stdlib Require Import DecimalString DecimalNat DecimalFacts Ascii String ZArith.
From stdpp Require Import gmap strings list fin_maps sorting.

Open Scope string_scope.
Open Scope list_scope.
Open Scope nat_scope.

(** ** Python values used by the code *)

(** A Python [str] holding file contents: a sequence of characters, one
    byte each on disk. *)
Abbreviation text := (list ascii).

(** Identifiers, file names and messages are [string]s. *)

(** Exceptions the code can raise, by class. *)
Inductive exn :=
  | ZeroDivisionError
  | FileNotFoundError
  | KeyError
  | ValueError
  | IndexError
  | TypeError.

Inductive result (A : Type) :=
  | Ok (a : A)
  | Raise (e : exn).
Arguments Ok {A} a.
Arguments Raise {A} e.

(** [str(n)] for a non-negative integer. *)
Definition py_str (n : nat) : string :=
  NilZero.string_of_uint (Nat.to_uint n).

(** [int(s)] for a string of decimal digits.  The other spellings [int]
    accepts (surrounding blanks, a sign, underscores) are never produced by
    [str] and are taken as [ValueError]. *)
Definition py_int (s : string) : result nat :=
  match NilZero.uint_of_string s with
  | Some d => Ok (Nat.of_uint d)
  | None => Raise ValueError
  end.

(** [c in s] for a one-character [c]. *)
Fixpoint contains (c : ascii) (s : string) : bool :=
  match s with
  | EmptyString => false
  | String a s' => if Ascii.eqb a c then true else contains c s'
  end.

(** [s.split(c)[0]]: the part of [s] before the first [c], all of [s] when
    there is none. *)
Fixpoint split_head (c : ascii) (s : string) : string :=
  match s with
  | EmptyString => EmptyString
  | String a s' => if Ascii.eqb a c then EmptyString else String a (split_head c s')
  end.

(** [s[0]] and [s[-1]], as one-character strings. *)
Definition first_char (s : string) : result string :=
  match s with
  | EmptyString => Raise IndexError
  | String a _ => Ok (String a EmptyString)
  end.

Fixpoint last_char (s : string) : result string :=
  match s with
  | EmptyString => Raise IndexError
  | String a EmptyString => Ok (String a EmptyString)
  | String _ s' => last_char s'
  end.

(** [sorted] on a list of strings: ascending code-point order. *)
Fixpoint sorted_insert (x : string) (l : list string) : list string :=
  match l with
  | [] => [x]
  | y :: l' => if String.leb x y then x :: l else y :: sorted_insert x l'
  end.

Definition sorted (l : list string) : list string :=
  foldr sorted_insert [] l.

(** [max] of a list, [ValueError] on the empty list. *)
Definition py_max {A} (ge : A → A → bool) (l : list A) : result A :=
  match l with
  | [] => Raise ValueError
  | x :: l' => Ok (foldl (λ m y, if ge m y then m else y) x l')
  end.

(** A slice bound, as Python normalises it against the length. *)
Definition clamp_index (len : nat) (i : Z) : nat :=
  if (i <? 0)%Z then Z.to_nat (Z.max 0 (i + Z.of_nat len))
  else Nat.min (Z.to_nat i) len.

(** [data[lo:hi]] and [data[lo:]]. *)
Definition py_slice (data : text) (lo hi : Z) : text :=
  let a := clamp_index (length data) lo in
  let b := clamp_index (length data) hi in
  take (b - a) (drop a data).

Definition py_slice_from (data : text) (lo : Z) : text :=
  drop (clamp_index (length data) lo) data.

(** [range(count)]. *)
Definition py_range (count : Z) : list Z :=
  Z.of_nat <$> seq 0 (Z.to_nat count).

(** [l[-1] += x]. *)
Definition add_to_last (l : list text) (x : text) : result (list text) :=
  match l !! (length l - 1) with
  | Some a => Ok (<[length l - 1 := a ++ x]> l)
  | None => Raise IndexError
  end.

(** ** The splitter *)

(** [_generate_sharded_data(count, data)] (it does not use [self]). *)
Definition _generate_sharded_data (count : Z) (data : text) : result (list text) :=
  if (count =? 0)%Z then Raise ZeroDivisionError else
  let splicenum := (Z.of_nat (length data) / count)%Z in
  let rem := (Z.of_nat (length data) mod count)%Z in
  let result :=
    (λ z, py_slice data (splicenum * z) (splicenum * (z + 1))) <$> py_range count in
  if (0 <? rem)%Z then add_to_last result (py_slice_from data (- rem))
  else Ok result.

(** ** The world: the handler's fields and the disk *)

(** An index entry, the dictionary [{'start': _, 'end': _}]. *)
Record entry := Entry { start : Z; end_ : Z }.

#[export] Instance entry_eq_dec : EqDecision entry.
Proof. solve_decision. Defined.

(** [mapping], [last_char_position] and [replication_level] are the fields
    of the handler; [mapfile] is the content of [mapping.json] ([None] when
    the file does not exist: what [json.dump] writes is what [json.load]
    returns); [data_dir] is the directory [data], file name to content
    ([None] when the directory does not exist).  Entries are only ever
    replaced as a whole, never updated in place, so that the entry shared
    by a replica and its primary in [add_replication] behaves as a copy. *)
Record world := World {
  mapping : gmap string entry;
  last_char_position : Z;
  replication_level : nat;
  mapfile : option (gmap string entry);
  data_dir : option (gmap string text)
}.

Definition set_mapping (m : gmap string entry) (w : world) : world :=
  World m (last_char_position w) (replication_level w) (mapfile w) (data_dir w).
Definition set_last_char_position (p : Z) (w : world) : world :=
  World (mapping w) p (replication_level w) (mapfile w) (data_dir w).
Definition set_replication_level (l : nat) (w : world) : world :=
  World (mapping w) (last_char_position w) l (mapfile w) (data_dir w).
Definition set_mapfile (f : option (gmap string entry)) (w : world) : world :=
  World (mapping w) (last_char_position w) (replication_level w) f (data_dir w).
Definition set_data_dir (d : option (gmap string text)) (w : world) : world :=
  World (mapping w) (last_char_position w) (replication_level w) (mapfile w) d.

(** ** The monad of the methods: state and exceptions *)

(** A raised exception keeps the changes made before it. *)
Definition M (A : Type) : Type := world → result A * world.

Definition ret {A} (a : A) : M A := λ w, (Ok a, w).
Definition raise {A} (e : exn) : M A := λ w, (Raise e, w).
Definition lift {A} (r : result A) : M A := λ w, (r, w).
Definition bind {A B} (m : M A) (k : A → M B) : M B :=
  λ w, match m w with
       | (Ok a, w') => k a w'
       | (Raise e, w') => (Raise e, w')
       end.
Definition gets {A} (f : world → A) : M A := λ w, (Ok (f w), w).
Definition modify (f : world → world) : M unit := λ w, (Ok tt, f w).

Notation "x <- m ;; k" := (bind m (λ x, k))
  (at level 100, m at next level, right associativity).
Notation "m ;; k" := (bind m (λ _, k))
  (at level 100, right associativity).

(** [for x in l: body(x)]. *)
Fixpoint for_each {A} (l : list A) (body : A → M unit) : M unit :=
  match l with
  | [] => ret tt
  | x :: l' => body x ;; for_each l' body
  end.

(** [[f(x) for x in l]]. *)
Fixpoint map_M {A B} (f : A → M B) (l : list A) : M (list B) :=
  match l with
  | [] => ret []
  | x :: l' => y <- f x ;; ys <- map_M f l' ;; ret (y :: ys)
  end.

(** [enumerate(l)]. *)
Definition enumerate {A} (l : list A) : list (nat * A) :=
  zip (seq 0 (length l)) l.

(** ** The file system calls *)

(** [os.listdir('./data')].  Python leaves the order of the names
    unspecified; the model lists them in the order of the map. *)
Definition listdir : M (list string) :=
  λ w, match data_dir w with
       | Some fs => (Ok ((map_to_list fs).*1), w)
       | None => (Raise FileNotFoundError, w)
       end.

(** [os.path.exists('data')] and [os.mkdir('data')]. *)
Definition data_exists : M bool :=
  gets (λ w, bool_decide (is_Some (data_dir w))).
Definition mkdir_data : M unit :=
  modify (set_data_dir (Some ∅)).

(** [os.path.exists(f'data/{name}')]. *)
Definition path_exists (name : string) : M bool :=
  gets (λ w, match data_dir w with
             | Some fs => bool_decide (is_Some (fs !! name))
             | None => false
             end).

(** The content of [data/name] as it is stored, which is what
    [os.path.getsize] and [copyfile] see. *)
Definition read_bytes (name : string) : M text :=
  λ w, match data_dir w ≫= (.!! name) with
       | Some d => (Ok d, w)
       | None => (Raise FileNotFoundError, w)
       end.

(** The carriage return and the line feed. *)
Definition CR : ascii := "013"%char.
Definition LF : ascii := "010"%char.

(** What reading a file opened with mode ['r'] gives for a stored
    content: the default [newline=None] turns ['\r\n'] and a lone ['\r']
    into ['\n'].  (Writing with mode ['w'] stores the text as it is where
    the line separator is ['\n'].) *)
Fixpoint universal_newlines (d : text) : text :=
  match d with
  | [] => []
  | c :: rest =>
      if decide (c = CR) then
        match rest with
        | c' :: rest' =>
            if decide (c' = LF) then LF :: universal_newlines rest'
            else LF :: universal_newlines rest
        | [] => [LF]
        end
      else c :: universal_newlines rest
  end.

(** [open(f'data/{name}', 'r').read()]. *)
Definition read_file (name : string) : M text :=
  d <- read_bytes name ;; ret (universal_newlines d).

(** [open(f'data/{name}', 'w').write(data)]. *)
Definition write_file (name : string) (data : text) : M unit :=
  λ w, match data_dir w with
       | Some fs => (Ok tt, set_data_dir (Some (<[name := data]> fs)) w)
       | None => (Raise FileNotFoundError, w)
       end.

(** [os.remove(f'data/{name}')]. *)
Definition remove (name : string) : M unit :=
  λ w, match data_dir w with
       | Some fs =>
           if bool_decide (is_Some (fs !! name))
           then (Ok tt, set_data_dir (Some (delete name fs)) w)
           else (Raise FileNotFoundError, w)
       | None => (Raise FileNotFoundError, w)
       end.

(** [os.path.getsize(f'./data/{name}')]. *)
Definition getsize (name : string) : M nat :=
  d <- read_bytes name ;; ret (length d).

(** [copyfile(f'./data/{src}', f'./data/{dst}')], for [src] other than
    [dst]. *)
Definition copyfile (src dst : string) : M unit :=
  d <- read_bytes src ;; write_file dst d.

(** ** The methods of [ShardHandler] *)

Definition has_dash (s : string) : bool := contains "-"%char s.

(** [self.mapping.keys()], in the order of the map; every use sorts or
    filters them. *)
Definition mapping_keys (w : world) : list string := (map_to_list (mapping w)).*1.

Definition write_map : M unit :=
  modify (λ w, set_mapfile (Some (mapping w)) w).

Definition load_map : M (gmap string entry) :=
  gets (λ w, default ∅ (mapfile w)).

Definition _reset_char_position : M unit :=
  modify (set_last_char_position 0).

Definition get_shard_ids : M (list string) :=
  gets (λ w, sorted (filter (λ key, ¬ has_dash key) (mapping_keys w))).

Definition get_replication_ids : M (list string) :=
  gets (λ w, sorted (filter (λ key, has_dash key) (mapping_keys w))).

(** [self.mapping.update({key: e})]. *)
Definition mapping_update (key : string) (e : entry) : M unit :=
  modify (λ w, set_mapping (<[key := e]> (mapping w)) w).

(** [self.mapping.pop(key)]. *)
Definition mapping_pop (key : string) : M unit :=
  λ w, match mapping w !! key with
       | Some _ => (Ok tt, set_mapping (delete key (mapping w)) w)
       | None => (Raise KeyError, w)
       end.

Definition _write_shard_mapping (num : string) (data : text) (replication : bool)
  : M unit :=
  if replication then
    (* num[:num.index('-')] *)
    parent_id <- (if has_dash num then ret (split_head "-"%char num)
                  else raise ValueError) ;;
    parent_shard <- gets (λ w, mapping w !! parent_id) ;;
    match parent_shard with
    | Some p => mapping_update num (Entry (start p) (end_ p))
    | None => raise TypeError
    end
  else
    n <- lift (py_int num) ;;
    (if decide (n = 0) then _reset_char_position else ret tt) ;;
    pos <- gets last_char_position ;;
    mapping_update num
      (Entry (if decide (pos = 0%Z) then pos else (pos + 1)%Z)
             (pos + Z.of_nat (length data))%Z) ;;
    modify (set_last_char_position (pos + Z.of_nat (length data))%Z).

Definition _write_shard (num : nat) (data : text) : M unit :=
  ex <- data_exists ;;
  (if ex : bool then ret tt else mkdir_data) ;;
  write_file (py_str num +:+ ".txt") data ;;
  _write_shard_mapping (py_str num) data false.

(** [for num, d in enumerate(spliced_data): self._write_shard(num, d)]. *)
Definition write_shards (spliced_data : list text) : M unit :=
  for_each (enumerate spliced_data) (λ '(num, d), _write_shard num d).

Definition already_sharded : string :=
  "Cannot build shard setup -- sharding already exists.".

(** [build_shards] returns the message, or [None] after building. *)
Definition build_shards (count : Z) (data : text) : M (option string) :=
  m <- gets mapping ;;
  if decide (m ≠ ∅) then ret (Some already_sharded)
  else
    spliced_data <- lift (_generate_sharded_data count data) ;;
    write_shards spliced_data ;;
    write_map ;;
    ret None.

Definition load_data_from_shards : M text :=
  ids <- get_shard_ids ;;
  result <- map_M (λ db, read_file (db +:+ ".txt")) ids ;;
  ret (concat result).

(** [keys = [int(z) for z in self.get_shard_ids()]]; the [keys.sort()] that
    follows reorders a list that is only passed to [max]. *)
Definition shard_keys : M (list nat) :=
  ids <- get_shard_ids ;;
  map_M (λ z, lift (py_int z)) ids.

Definition nat_max (l : list nat) : result nat := py_max (λ m y, y <=? m) l.
Definition str_max (l : list string) : result string :=
  py_max (λ m y, String.leb y m) l.

Definition find_highest_replication_level : M nat :=
  ids <- get_replication_ids ;;
  match ids with
  | [] => ret 0
  | _ =>
      lasts <- map_M (λ x, lift (last_char x)) ids ;;
      mx <- lift (str_max lasts) ;;
      lift (py_int mx)
  end.

Definition verify_replications : M unit :=
  names <- listdir ;;
  let replications := filter (λ filename, has_dash filename) names in
  for_each replications (λ r,
    r0 <- lift (first_char r) ;;
    let file_to_match := r0 +:+ ".txt" in
    primary_size <- getsize file_to_match ;;
    replication_size <- getsize r ;;
    if decide (primary_size = replication_size) then ret tt
    else
      ex <- path_exists r ;;
      (if ex : bool then remove r else ret tt) ;;
      copyfile file_to_match r).

Definition verify_primaries : M unit :=
  expected_ids <- get_shard_ids ;;
  names <- listdir ;;
  primary_ids <- map_M (λ filename, lift (first_char filename))
                   (filter (λ filename, ¬ has_dash filename) names) ;;
  for_each expected_ids (λ id,
    if decide (id ∈ primary_ids) then ret tt
    else
      level <- find_highest_replication_level ;;
      copyfile (id +:+ "-" +:+ py_str level +:+ ".txt") (id +:+ ".txt")).

Definition sync_replication : M unit :=
  ids <- get_replication_ids ;;
  match ids with
  | [] => ret tt
  | _ => verify_primaries ;; verify_replications
  end.

Definition add_shard : M unit :=
  m <- load_map ;;
  modify (set_mapping m) ;;
  data <- load_data_from_shards ;;
  keys <- shard_keys ;;
  mx <- lift (nat_max keys) ;;
  let new_shard_num := mx + 2 in
  spliced_data <- lift (_generate_sharded_data (Z.of_nat new_shard_num) data) ;;
  write_shards spliced_data ;;
  write_map ;;
  sync_replication.

Definition remove_shard : M unit :=
  m <- load_map ;;
  modify (set_mapping m) ;;
  data <- load_data_from_shards ;;
  keys <- shard_keys ;;
  new_shard_num <- lift (nat_max keys) ;;
  spliced_data <- lift (_generate_sharded_data (Z.of_nat new_shard_num) data) ;;
  files <- listdir ;;
  for_each files (λ file,
    if has_dash file then
      if decide (split_head "-"%char file = py_str new_shard_num)
      then remove file else ret tt
    else
      if decide (split_head "."%char file = py_str new_shard_num)
      then remove file else ret tt) ;;
  keys <- gets mapping_keys ;;
  for_each keys (λ key,
    if decide (key = py_str new_shard_num) then mapping_pop key else ret tt) ;;
  write_shards spliced_data ;;
  write_map ;;
  sync_replication.

Definition add_replication : M unit :=
  modify (λ w, set_replication_level (replication_level w + 1) w) ;;
  current_level <- gets replication_level ;;
  files <- listdir ;;
  for_each files (λ f,
    if has_dash f then ret tt
    else
      f0 <- lift (first_char f) ;;
      copyfile f (f0 +:+ "-" +:+ py_str current_level +:+ ".txt") ;;
      parent <- gets (λ w, mapping w !! f0) ;;
      match parent with
      | Some e => mapping_update (f0 +:+ "-" +:+ py_str current_level) e
      | None => raise KeyError
      end) ;;
  write_map.

Definition remove_replication : M unit :=
  m <- load_map ;;
  modify (set_mapping m) ;;
  keys <- shard_keys ;;
  rep_count <- gets replication_level ;;
  (if decide (rep_count ≠ 0) then
     for_each keys (λ key,
       let name := py_str key +:+ "-" +:+ py_str rep_count in
       ex <- path_exists (name +:+ ".txt") ;;
       if ex : bool then remove (name +:+ ".txt") ;; mapping_pop name
       else ret tt) ;;
     write_map
   else raise FileNotFoundError) ;;
  sync_replication.

(** The argument of [get_shard_data]: [None] (also the default), an
    integer or a string. *)
Inductive shardnum_arg :=
  | PyNone
  | PyInt (z : Z)
  | PyStr (s : string).

(** [not shardnum]. *)
Definition falsy (v : shardnum_arg) : bool :=
  match v with
  | PyNone => true
  | PyInt z => bool_decide (z = 0%Z)
  | PyStr s => bool_decide (s = "")
  end.

(** [self.mapping.get(shardnum)]: the keys are strings, and no integer and
    no [None] equals a string. *)
Definition mapping_get (m : gmap string entry) (v : shardnum_arg) : option entry :=
  match v with
  | PyStr s => m !! s
  | _ => None
  end.

(** What [get_shard_data] returns: the mapping itself, or one of its two
    formatted messages, kept as the values the f-string interpolates. *)
Inductive shard_data :=
  | AllShardData (m : gmap string entry)
  | InvalidShardID (valid_ids : list string)
  | ShardInfo (shardnum : shardnum_arg) (data : entry).

Definition get_all_shard_data : M (gmap string entry) := gets mapping.

(** An entry is a dictionary with two keys, hence true: [not data] holds
    only for [None]. *)
Definition get_shard_data (shardnum : shardnum_arg) : M shard_data :=
  if falsy shardnum then m <- get_all_shard_data ;; ret (AllShardData m)
  else
    data <- gets (λ w, mapping_get (mapping w) shardnum) ;;
    match data with
    | None => ids <- get_shard_ids ;; ret (InvalidShardID ids)
    | Some d => ret (ShardInfo shardnum d)
    end.

(** [ShardHandler()]: the constructor, on a given disk. *)
Definition init (mf : option (gmap string entry)) (dir : option (gmap string text))
  : result unit * world :=
  (m <- load_map ;;
   modify (set_mapping m) ;;
   modify (set_last_char_position 0) ;;
   level <- find_highest_replication_level ;;
   modify (set_replication_level level)) (World ∅ 0 0 mf dir).

(** ** Notions of the specification and scenarios *)

(** The comprehension of the splitter, on naturals: [k] slices of length
    [base] from the start of [data]. *)
Definition even_slices (base : nat) (data : text) (k : nat) : list text :=
  (λ i, take base (drop (base * i) data)) <$> seq 0 k.

Definition txt (s : string) : text := list_ascii_of_string s.

(** A handler on an empty disk: no [mapping.json], no directory [data]. *)
Definition fresh : world := World ∅ 0 0 None None.

(** The world a computation leaves. *)
Definition after {A} (m : M A) (w : world) : world := (m w).2.

(** The content of the primary file of shard [i]. *)
Definition primary_file (w : world) (i : nat) : option text :=
  data_dir w ≫= (.!! (py_str i +:+ ".txt")).

(** The dataset as the specification defines it: the primary shards
    [0..n-1] concatenated in ascending numeric order of their ids. *)
Definition dataset (n : nat) (w : world) : option text :=
  (λ parts, concat parts) <$> mapM (primary_file w) (seq 0 n).

(** The names of the replica files on disk. *)
Definition replica_files (w : world) : list string :=
  match data_dir w with
  | Some fs => filter (λ name, has_dash name) ((map_to_list fs).*1)
  | None => []
  end.

(** The pieces [add_shard] and [remove_shard] write: their lines up to
    the call of the splitter. *)
Definition add_shard_pieces : M (list text) :=
  m <- load_map ;;
  modify (set_mapping m) ;;
  data <- load_data_from_shards ;;
  keys <- shard_keys ;;
  mx <- lift (nat_max keys) ;;
  lift (_generate_sharded_data (Z.of_nat (mx + 2)) data).

Definition remove_shard_pieces : M (list text) :=
  m <- load_map ;;
  modify (set_mapping m) ;;
  data <- load_data_from_shards ;;
  keys <- shard_keys ;;
  new_shard_num <- lift (nat_max keys) ;;
  lift (_generate_sharded_data (Z.of_nat new_shard_num) data).

(** A structural write that succeeds: [build_shards], [add_shard] or
    [remove_shard] takes the world [w] to [w'] and writes [pieces]. *)
Inductive structural_write : world → list text → world → Prop :=
  | write_build count data pieces w w' :
      _generate_sharded_data count data = Ok pieces →
      build_shards count data w = (Ok None, w') →
      structural_write w pieces w'
  | write_add pieces w w0 w' :
      add_shard_pieces w = (Ok pieces, w0) →
      add_shard w = (Ok tt, w') →
      structural_write w pieces w'
  | write_remove pieces w w0 w' :
      remove_shard_pieces w = (Ok pieces, w0) →
      remove_shard w = (Ok tt, w') →
      structural_write w pieces w'.

(** The number of characters of a list of pieces. *)
Definition total_length (pieces : list text) : Z :=
  Z.of_nat (length (concat pieces)).

(** The start that [_write_shard_mapping] gives an entry when the position
    is [pos]. *)
Definition start_after (pos : Z) : Z :=
  if decide (pos = 0%Z) then pos else (pos + 1)%Z.

(** The index as [_write_shard_mapping] fills it for [pieces]: entry [i]
    ends at the number of characters of the pieces [0..i] and starts from
    the number of characters before it. *)
Definition index_of_pieces (m : gmap string entry) (pieces : list text) : Prop :=
  ∀ i piece, pieces !! i = Some piece →
    m !! py_str i
    = Some (Entry (start_after (total_length (take i pieces)))
                  (total_length (take (S i) pieces))).

(** The +1-gap convention of the specification. *)
Definition gap_convention (m : gmap string entry) (pieces : list text) : Prop :=
  (∃ e0, m !! py_str 0 = Some e0 ∧ start e0 = 0%Z) ∧
  ∀ i piece, 1 ≤ i → pieces !! i = Some piece →
    ∃ prev cur,
      m !! py_str (i - 1) = Some prev ∧ m !! py_str i = Some cur ∧
      start cur = (end_ prev + 1)%Z ∧
      (end_ cur - start cur + 1)%Z = Z.of_nat (length piece).

(** A computation that leaves the mapping as it is. *)
Definition keeps_mapping {A} (m : M A) : Prop :=
  ∀ w, mapping (m w).2 = mapping w.

(** The scenario of the specification: ten characters in three shards. *)
Definition ten_chars : text := txt "abcdefghij".

(** Twenty-four characters in eleven shards: ids [0] to [10]. *)
Definition alphabet24 : text := txt "abcdefghijklmnopqrstuvwx".
Definition eleven_shards : world := after (build_shards 11 alphabet24) fresh.

(** Two shards with one level of replication. *)
Definition two_shards_one_level : world :=
  after (build_shards 2 (txt "abcd") ;; add_replication) fresh.

(** One shard with one and with two levels of replication. *)
Definition one_shard_one_level : world :=
  after (build_shards 1 (txt "ab") ;; add_replication) fresh.
Definition one_shard_two_levels : world :=
  after (build_shards 1 (txt "ab") ;; add_replication ;; add_replication) fresh.

(** The eleven shards above, each with a replica of level 1 that is a copy
    of its primary and has its primary's range: the disk of a handler with
    one level of replication, as the data model describes it. *)
Definition eleven_replicated_files : gmap string text :=
  list_to_map
    [("0.txt", txt "ab"); ("0-1.txt", txt "ab");
     ("1.txt", txt "cd"); ("1-1.txt", txt "cd");
     ("2.txt", txt "ef"); ("2-1.txt", txt "ef");
     ("3.txt", txt "gh"); ("3-1.txt", txt "gh");
     ("4.txt", txt "ij"); ("4-1.txt", txt "ij");
     ("5.txt", txt "kl"); ("5-1.txt", txt "kl");
     ("6.txt", txt "mn"); ("6-1.txt", txt "mn");
     ("7.txt", txt "op"); ("7-1.txt", txt "op");
     ("8.txt", txt "qr"); ("8-1.txt", txt "qr");
     ("9.txt", txt "st"); ("9-1.txt", txt "st");
     ("10.txt", txt "uvwx"); ("10-1.txt", txt "uvwx")].

Definition eleven_replicated_mapping : gmap string entry :=
  list_to_map
    [("0", Entry 0 2); ("0-1", Entry 0 2);
     ("1", Entry 3 4); ("1-1", Entry 3 4);
     ("2", Entry 5 6); ("2-1", Entry 5 6);
     ("3", Entry 7 8); ("3-1", Entry 7 8);
     ("4", Entry 9 10); ("4-1", Entry 9 10);
     ("5", Entry 11 12); ("5-1", Entry 11 12);
     ("6", Entry 13 14); ("6-1", Entry 13 14);
     ("7", Entry 15 16); ("7-1", Entry 15 16);
     ("8", Entry 17 18); ("8-1", Entry 17 18);
     ("9", Entry 19 20); ("9-1", Entry 19 20);
     ("10", Entry 21 24); ("10-1", Entry 21 24)].

Definition eleven_replicated : world :=
  World eleven_replicated_mapping 0 1
    (Some eleven_replicated_mapping) (Some eleven_replicated_files).

(** The order of [sorted]: [x <= y] on Python strings. *)
Definition str_le (x y : string) : Prop := String.leb x y = true.

(** A computation that leaves the component [f] of the world as it is,
    whether it returns or raises. *)
Definition preserves {A B} (f : world → B) (m : M A) : Prop :=
  ∀ w, f (m w).2 = f w.

(** A mutating method that returns normally takes [w] to [w']. *)
Inductive completes : world → world → Prop :=
  | completes_build_shards count data w w' :
      build_shards count data w = (Ok None, w') → completes w w'
  | completes_add_shard w w' :
      add_shard w = (Ok tt, w') → completes w w'
  | completes_remove_shard w w' :
      remove_shard w = (Ok tt, w') → completes w w'
  | completes_add_replication w w' :
      add_replication w = (Ok tt, w') → completes w w'
  | completes_remove_replication w w' :
      remove_replication w = (Ok tt, w') → completes w w'.

(** The files [remove_shard] deletes for the shard [num]: the replicas
    whose name before the first ['-'] is the id, and the files without
    ['-'] whose name before the first ['.'] is the id. *)
Definition removes_file (num : nat) (file : string) : bool :=
  if has_dash file then bool_decide (split_head "-"%char file = py_str num)
  else bool_decide (split_head "."%char file = py_str num).

(** The file and the key of the replica that [add_replication] makes at
    [level] for a primary whose file name begins with [f0]. *)
Definition replica_file (f0 : string) (level : nat) : string :=
  f0 +:+ "-" +:+ py_str level +:+ ".txt".
Definition replica_key (f0 : string) (level : nat) : string :=
  f0 +:+ "-" +:+ py_str level.

(** ** The module around the class *)

Definition filename : string := "chapter2.txt".

(** [load_data_from_file(path)], given the stored content of the files
    of the working directory by name: [path if path else filename] takes
    [filename] for [None] and for the empty string, and the file is read
    with mode ['r']. *)
Definition load_data_from_file (cwd : gmap string text) (path : option string)
  : result text :=
  let name :=
    match path with
    | Some p => if decide (p = EmptyString) then filename else p
    | None => filename
    end in
  match cwd !! name with
  | Some data => Ok (universal_newlines data)
  | None => Raise FileNotFoundError
  end.

(** The statements at the end of the module, run when it is loaded:
    [s = ShardHandler()], [s.build_shards(5, load_data_from_file())],
    [s.find_highest_replication_level()], [s.sync_replication()] (the
    [print] has no effect on the world). *)
Definition run_module (cwd : gmap string text)
    (mf : option (gmap string entry)) (dir : option (gmap string text))
  : result unit * world :=
  match init mf dir with
  | (Ok _, w) =>
      (data <- lift (load_data_from_file cwd None) ;;
       build_shards 5 data ;;
       find_highest_replication_level ;;
       sync_replication) w
  | (Raise e, w) => (Raise e, w)
  end.

(** Results are compared by [decide]. *)
#[local] Instance exn_eq_dec : EqDecision exn.
Proof. solve_decision. Defined.
#[local] Instance result_eq_dec {A} `{EqDecision A} : EqDecision (result A).
Proof. solve_decision. Defined.

(** ** Facts about the primitives *)

Lemma py_int_str n : py_int (py_str n) = Ok n.
Proof.
  unfold py_int, py_str. rewrite NilZero.usu.
  - by rewrite DecimalNat.Unsigned.of_to.
  - rewrite <- (DecimalNat.Unsigned.of_to n) at 1.
    rewrite DecimalNat.Unsigned.to_of. apply DecimalFacts.unorm_nonnil.
Qed.

Lemma py_str_inj n m : py_str n = py_str m → n = m.
Proof.
  intros H. pose proof (py_int_str n) as Hn. rewrite H, py_int_str in Hn.
  by injection Hn.
Qed.

Lemma py_slice_nat (data : text) (a b : nat) :
  a ≤ b → b ≤ length data →
  py_slice data (Z.of_nat a) (Z.of_nat b) = take (b - a) (drop a data).
Proof.
  intros Hab Hb. unfold py_slice, clamp_index.
  destruct (Z.ltb_spec (Z.of_nat a) 0); [lia|].
  destruct (Z.ltb_spec (Z.of_nat b) 0); [lia|].
  rewrite !Nat2Z.id. by rewrite !Nat.min_l by lia.
Qed.

Lemma py_slice_from_neg (data : text) (r : nat) :
  0 < r → r ≤ length data →
  py_slice_from data (- Z.of_nat r) = drop (length data - r) data.
Proof.
  intros Hr Hle. unfold py_slice_from, clamp_index.
  destruct (Z.ltb_spec (- Z.of_nat r) 0); [|lia].
  f_equal. lia.
Qed.

Lemma even_slices_S base data k :
  even_slices base data (S k)
  = even_slices base data k ++ [take base (drop (base * k) data)].
Proof. unfold even_slices. by rewrite seq_S, fmap_app. Qed.

Lemma even_slices_length base data k : length (even_slices base data k) = k.
Proof. unfold even_slices. by rewrite length_fmap, length_seq. Qed.

Lemma even_slices_lookup base data (k i : nat) :
  i < k → even_slices base data k !! i = Some (take base (drop (base * i) data)).
Proof.
  intros Hi. unfold even_slices. rewrite list_lookup_fmap.
  by rewrite lookup_seq_lt.
Qed.

Lemma even_slices_concat base data k :
  concat (even_slices base data k) = take (base * k) data.
Proof.
  induction k as [|k IH].
  - by rewrite Nat.mul_0_r.
  - rewrite even_slices_S, concat_app, IH. simpl. rewrite app_nil_r.
    rewrite take_take_drop. f_equal. lia.
Qed.

Lemma comprehension_even_slices (data : text) (base count : nat) :
  base * count ≤ length data →
  (λ z, py_slice data (Z.of_nat base * z) (Z.of_nat base * (z + 1)))
    <$> py_range (Z.of_nat count)
  = even_slices base data count.
Proof.
  intros Hle. unfold py_range, even_slices. rewrite Nat2Z.id, <- list_fmap_compose.
  apply list_fmap_ext. intros i ? [-> Hi]%lookup_seq. simpl.
  replace (Z.of_nat base * Z.of_nat i)%Z with (Z.of_nat (base * i)) by lia.
  replace (Z.of_nat base * (Z.of_nat i + 1))%Z with (Z.of_nat (base * i + base)) by lia.
  rewrite py_slice_nat by nia. f_equal. lia.
Qed.

(** The value of the splitter for a positive count, in closed form. *)
Lemma generate_sharded_data_pos data k :
  let base := length data / S k in
  _generate_sharded_data (Z.of_nat (S k)) data
  = Ok (even_slices base data k ++ [drop (base * k) data]).
Proof.
  intros base. unfold _generate_sharded_data.
  destruct (Z.eqb_spec (Z.of_nat (S k)) 0); [lia|].
  rewrite <- Nat2Z.inj_div, <- Nat2Z.inj_mod. fold base.
  pose proof (Nat.div_mod_eq (length data) (S k)) as Hdm. fold base in Hdm.
  assert (length data `mod` S k < S k) as Hub by (apply Nat.mod_upper_bound; lia).
  assert (length data `mod` S k ≤ length data) as Hrl by apply Nat.Div0.mod_le.
  set (r := length data `mod` S k) in *.
  rewrite comprehension_even_slices by lia.
  rewrite even_slices_S.
  destruct (Z.ltb_spec 0 (Z.of_nat r)) as [Hrem|Hrem].
  - unfold add_to_last.
    set (E := even_slices base data k). set (x := take base (drop (base * k) data)).
    assert (length (E ++ [x]) - 1 = length E + 0) as ->
      by (rewrite length_app; simpl; lia).
    rewrite lookup_app_r by lia.
    replace (length E + 0 - length E) with 0 by lia. simpl.
    rewrite insert_app_r. simpl. do 3 f_equal. subst x.
    rewrite py_slice_from_neg by lia.
    replace (length data - r) with (base * k + base) by lia.
    rewrite <- drop_drop. apply take_drop.
  - do 3 f_equal. rewrite take_ge; [done|]. rewrite length_drop. lia.
Qed.

(** ** Running the monad *)

Lemma bind_Ok {A B} (m : M A) (k : A → M B) w b w' :
  bind m k w = (Ok b, w') →
  ∃ a w1, m w = (Ok a, w1) ∧ k a w1 = (Ok b, w').
Proof.
  unfold bind. destruct (m w) as [[a|e] w1]; [eauto|discriminate].
Qed.

Ltac bind_inv H :=
  repeat match type of H with
    | bind _ _ _ = (Ok _, _) =>
        let a := fresh "a" in let w := fresh "w" in let Ha := fresh "Hrun" in
        apply bind_Ok in H as (a & w & Ha & H)
    end.

Create HintDb keeps.

Lemma keeps_ret {A} (a : A) : keeps_mapping (ret a).
Proof. done. Qed.
Lemma keeps_raise {A} e : keeps_mapping (@raise A e).
Proof. done. Qed.
Lemma keeps_lift {A} (r : result A) : keeps_mapping (lift r).
Proof. done. Qed.
Lemma keeps_gets {A} (f : world → A) : keeps_mapping (gets f).
Proof. done. Qed.
Lemma keeps_bind {A B} (m : M A) (k : A → M B) :
  keeps_mapping m → (∀ a, keeps_mapping (k a)) → keeps_mapping (bind m k).
Proof.
  intros Hm Hk w. unfold bind. specialize (Hm w).
  destruct (m w) as [[a|e] w1]; simpl in *; [|done].
  by rewrite Hk.
Qed.
Lemma keeps_for_each {A} (l : list A) body :
  (∀ x, keeps_mapping (body x)) → keeps_mapping (for_each l body).
Proof.
  intros Hb. induction l as [|x l IH]; [done|].
  simpl. apply keeps_bind; auto.
Qed.
Lemma keeps_map_M {A B} (f : A → M B) l :
  (∀ x, keeps_mapping (f x)) → keeps_mapping (map_M f l).
Proof.
  intros Hf. induction l as [|x l IH]; [done|].
  simpl. repeat (apply keeps_bind; [auto|intros ?]). done.
Qed.
Lemma keeps_listdir : keeps_mapping listdir.
Proof. intros w. unfold listdir. by destruct (data_dir w). Qed.
Lemma keeps_read_bytes name : keeps_mapping (read_bytes name).
Proof. intros w. unfold read_bytes. by destruct (_ ≫= _). Qed.
Lemma keeps_read_file name : keeps_mapping (read_file name).
Proof. intros w. unfold read_file, bind, read_bytes. by destruct (_ ≫= _). Qed.
Lemma keeps_write_file name d : keeps_mapping (write_file name d).
Proof. intros w. unfold write_file. by destruct (data_dir w). Qed.
Lemma keeps_remove name : keeps_mapping (remove name).
Proof.
  intros w. unfold remove. destruct (data_dir w); [|done]. by case_bool_decide.
Qed.
Lemma keeps_write_map : keeps_mapping write_map.
Proof. done. Qed.

#[export] Hint Resolve keeps_ret keeps_raise keeps_lift keeps_gets keeps_listdir
  keeps_read_bytes keeps_read_file keeps_write_file keeps_remove keeps_write_map
  : keeps.

Ltac keeps :=
  repeat first
    [ progress auto with keeps
    | apply keeps_bind; [|intros ?]
    | apply keeps_for_each; intros ?
    | apply keeps_map_M; intros ?
    | case_match ].

Lemma keeps_find_highest_replication_level :
  keeps_mapping find_highest_replication_level.
Proof. unfold find_highest_replication_level, get_replication_ids. keeps. Qed.

Lemma keeps_sync_replication : keeps_mapping sync_replication.
Proof.
  pose proof keeps_find_highest_replication_level.
  unfold sync_replication, verify_primaries, verify_replications,
    get_replication_ids, get_shard_ids, getsize, copyfile, path_exists.
  keeps.
Qed.

(** ** The splitter *)

(** C1: for [1 <= count <= len(data)] the splitter returns [count] pieces;
    piece [i] is the part of [data] that starts at offset [base * i], of
    length [base] for all pieces but the last and [base + rem] for the last,
    where [base = len(data) // count] and [rem = len(data) % count]; the
    pieces concatenated in order are [data]. *)
Theorem generate_sharded_data_split (data : text) (count : nat) :
  1 ≤ count ≤ length data →
  let base := length data / count in
  let rem := length data `mod` count in
  ∃ pieces,
    _generate_sharded_data (Z.of_nat count) data = Ok pieces ∧
    length pieces = count ∧
    (∀ i piece, pieces !! i = Some piece →
       piece = take (length piece) (drop (base * i) data) ∧
       length piece = if decide (i = count - 1) then base + rem else base) ∧
    concat pieces = data.
Proof.
  intros [Hpos Hle] base rem. destruct count as [|k]; [lia|].
  pose proof (Nat.div_mod_eq (length data) (S k)) as Hdm.
  fold base in Hdm. fold rem in Hdm.
  eexists. split; [apply generate_sharded_data_pos|]. fold base.
  split; [|split].
  - rewrite length_app, even_slices_length. simpl. lia.
  - intros i piece Hi.
    destruct (decide (i < k)) as [Hlt|Hge].
    + rewrite lookup_app_l in Hi by (rewrite even_slices_length; lia).
      rewrite even_slices_lookup in Hi by done. injection Hi as <-.
      assert (length (take base (drop (base * i) data)) = base) as Hlen.
      { rewrite length_take, length_drop. nia. }
      rewrite Hlen. split; [done|]. by rewrite decide_False by lia.
    + rewrite lookup_app_r in Hi by (rewrite even_slices_length; lia).
      rewrite even_slices_length in Hi.
      destruct (i - k) as [|j] eqn:Hik; [|by destruct j].
      injection Hi as <-. assert (i = k) as -> by lia.
      rewrite decide_True by lia. rewrite length_drop. split.
      * by rewrite take_ge by (rewrite length_drop; lia).
      * lia.
  - rewrite concat_app, even_slices_concat. simpl. rewrite app_nil_r.
    apply take_drop.
Qed.

Lemma generate_sharded_data_split_witness :
  ∃ pieces,
    _generate_sharded_data 3 (txt "abcdefghij") = Ok pieces ∧
    length pieces = 3 ∧
    (∀ i piece, pieces !! i = Some piece →
       piece = take (length piece) (drop (3 * i) (txt "abcdefghij")) ∧
       length piece = if decide (i = 2) then 4 else 3) ∧
    concat pieces = txt "abcdefghij".
Proof.
  apply (generate_sharded_data_split (txt "abcdefghij") 3). simpl. lia.
Defined.

(** ** Writing the shards and the index *)

(** One [_write_shard] never fails; it writes the file, the entry and the
    position. *)
Lemma write_shard_run (num : nat) (data : text) (w : world) :
  let pos := if decide (num = 0) then 0%Z else last_char_position w in
  _write_shard num data w
  = (Ok tt,
     World (<[py_str num := Entry (start_after pos) (pos + Z.of_nat (length data))]>
              (mapping w))
           (pos + Z.of_nat (length data)) (replication_level w) (mapfile w)
           (Some (<[py_str num +:+ ".txt" := data]> (default ∅ (data_dir w))))).
Proof.
  unfold _write_shard, _write_shard_mapping, bind, data_exists, gets, mkdir_data,
    modify, write_file, lift, mapping_update, _reset_char_position, ret.
  rewrite py_int_str.
  destruct w as [m p l mf [fs|]]; simpl; by destruct (decide (num = 0)).
Qed.

Lemma total_length_cons (d : text) (l : list text) :
  total_length (d :: l) = (Z.of_nat (length d) + total_length l)%Z.
Proof. unfold total_length. simpl. rewrite length_app. lia. Qed.

Lemma total_length_nonneg (l : list text) : (0 ≤ total_length l)%Z.
Proof. unfold total_length. lia. Qed.

Lemma entry_intro (a a' b b' : Z) :
  a = a' → b = b' →
  Some (Entry (start_after a) b) = Some (Entry (start_after a') b').
Proof. by intros -> ->. Qed.

(** The loop of [write_shards] from shard [k] on. *)
Lemma write_from_run (l : list text) (k : nat) (w : world) :
  1 ≤ k →
  ∃ w', for_each (zip (seq k (length l)) l) (λ '(num, d), _write_shard num d) w
        = (Ok tt, w') ∧
    (∀ j piece, l !! j = Some piece →
       mapping w' !! py_str (k + j)
       = Some (Entry (start_after (last_char_position w + total_length (take j l)))
                     (last_char_position w + total_length (take (S j) l)))) ∧
    (∀ i, i < k → mapping w' !! py_str i = mapping w !! py_str i).
Proof.
  revert k w. induction l as [|d l IH]; intros k w Hk.
  - eexists. split; [done|]. split; [|done]. intros j piece. by rewrite lookup_nil.
  - simpl. unfold bind at 1. rewrite write_shard_run. rewrite decide_False by lia.
    set (w1 := World _ _ _ _ _).
    destruct (IH (S k) w1) as (w' & Hrun & Hent & Hold); [lia|].
    exists w'. split; [done|]. split.
    + intros [|j] piece Hj.
      * rewrite Nat.add_0_r, Hold by lia. subst w1. simpl.
        rewrite lookup_insert_eq. unfold total_length. simpl.
        rewrite app_nil_r. apply entry_intro; lia.
      * simpl in Hj. apply Hent in Hj. rewrite Nat.add_succ_r. simpl in Hj.
        rewrite Hj. subst w1. simpl. rewrite !total_length_cons.
        apply entry_intro; lia.
    + intros i Hi. rewrite Hold by lia. subst w1. simpl.
      apply lookup_insert_ne. intros Heq%py_str_inj. lia.
Qed.

Lemma write_shards_run (pieces : list text) (w : world) :
  ∃ w', write_shards pieces w = (Ok tt, w') ∧
        index_of_pieces (mapping w') pieces ∧
        (pieces = [] → w' = w).
Proof.
  unfold write_shards, enumerate. destruct pieces as [|p rest].
  - eexists. split; [done|]. split; [|done]. intros i piece. by rewrite lookup_nil.
  - simpl. unfold bind at 1. rewrite write_shard_run. simpl.
    set (w1 := World _ _ _ _ _).
    destruct (write_from_run rest 1 w1) as (w' & Hrun & Hent & Hold); [lia|].
    exists w'. split; [done|]. split; [|done].
    intros [|i] piece Hi.
    + rewrite Hold by lia. subst w1. simpl. rewrite lookup_insert_eq.
      unfold total_length. simpl. rewrite app_nil_r.
      apply entry_intro; lia.
    + simpl in Hi. apply Hent in Hi. simpl in Hi. rewrite Hi. subst w1. simpl.
      rewrite !total_length_cons. apply entry_intro; lia.
Qed.

(** Two runs of the same computation from the same world agree. *)
Ltac same_run :=
  repeat match goal with
    | H1 : ?m ?w = _, H2 : ?m ?w = _ |- _ => rewrite H1 in H2; simplify_eq
    end.

Lemma written_then_synced (pieces : list text) (w1 w2 w3 w' : world) u1 u2 u3 :
  write_shards pieces w1 = (Ok u1, w2) →
  write_map w2 = (Ok u2, w3) →
  sync_replication w3 = (Ok u3, w') →
  index_of_pieces (mapping w') pieces.
Proof.
  intros Hw Hm Hs.
  destruct (write_shards_run pieces w1) as (wr & Hw' & Hidx & _). same_run.
  pose proof (keeps_sync_replication w3) as Hk. rewrite Hs in Hk. simpl in Hk.
  rewrite Hk. unfold write_map, modify in Hm. by simplify_eq.
Qed.

Lemma structural_write_index (w : world) (pieces : list text) (w' : world) :
  structural_write w pieces w' → index_of_pieces (mapping w') pieces.
Proof.
  destruct 1 as [count data pieces w w' Hgen H | pieces w w0 w' Hp H
                | pieces w w0 w' Hp H].
  - unfold build_shards in H. bind_inv H. case_decide; [done|].
    bind_inv H. unfold lift in *. simplify_eq.
    destruct (write_shards_run pieces w1) as (wr & Hw & Hidx & _). same_run.
    unfold write_map, modify, ret in *. by simplify_eq.
  - unfold add_shard_pieces in Hp. unfold add_shard in H.
    bind_inv Hp. bind_inv H. same_run. unfold lift in *. simplify_eq.
    eauto using written_then_synced.
  - unfold remove_shard_pieces in Hp. unfold remove_shard in H.
    bind_inv Hp. bind_inv H. same_run. unfold lift in *. simplify_eq.
    eauto using written_then_synced.
Qed.

Lemma index_gap_convention (m : gmap string entry) (pieces : list text) :
  index_of_pieces m pieces →
  ∀ p, pieces !! 0 = Some p → p ≠ [] → gap_convention m pieces.
Proof.
  intros Hidx p Hp Hne. split.
  - eexists. split; [apply (Hidx _ _ Hp)|done].
  - intros i piece Hi Hpiece. destruct i as [|i]; [lia|].
    assert (is_Some (pieces !! i)) as [prev Hprev].
    { apply lookup_lt_is_Some. apply lookup_lt_Some in Hpiece. lia. }
    do 2 eexists. replace (S i - 1) with i by lia.
    split; [apply (Hidx _ _ Hprev)|]. split; [apply (Hidx _ _ Hpiece)|]. simpl.
    assert (0 < total_length (take (S i) pieces))%Z as Hpos.
    { destruct pieces as [|p' rest]; [done|]. simpl in Hp. simplify_eq.
      rewrite firstn_cons, total_length_cons.
      pose proof (total_length_nonneg (take i rest)).
      destruct p; [done|]. simpl. lia. }
    unfold start_after. rewrite decide_False by lia. split; [done|].
    rewrite (take_S_r _ _ _ Hpiece). unfold total_length.
    rewrite concat_app, length_app. simpl. rewrite app_nil_r. lia.
Qed.

(** With at least as many characters as pieces, the first piece is not
    empty. *)
Lemma first_piece_nonempty (data : text) (count : nat) (pieces : list text) :
  1 ≤ count ≤ length data →
  _generate_sharded_data (Z.of_nat count) data = Ok pieces →
  ∃ p, pieces !! 0 = Some p ∧ p ≠ [].
Proof.
  intros [Hpos Hle] Hgen. destruct count as [|k]; [lia|].
  pose proof (generate_sharded_data_pos data k) as Hp. cbv zeta in Hp.
  rewrite Hp in Hgen. clear Hp.
  assert (1 ≤ length data / S k) as Hbase.
  { apply Nat.div_le_lower_bound; lia. }
  set (base := length data / S k) in *.
  assert (pieces = even_slices base data k ++ [drop (base * k) data]) as ->
    by congruence.
  clear Hgen. clearbody base.
  destruct k as [|k].
  - eexists. split; [done|]. intros Hnil%(f_equal length).
    rewrite length_drop in Hnil. simpl in Hnil. lia.
  - eexists. split.
    + rewrite lookup_app_l by (rewrite even_slices_length; lia).
      apply even_slices_lookup. lia.
    + intros Hnil%(f_equal length).
      rewrite length_take, length_drop in Hnil. simpl in Hnil. lia.
Qed.

(** ** Building *)

(** C2, as stated, fails: after [build_shards(3, "abcdefghij")] on an empty
    disk the three shard files do not hold ["abcd"], ["efg"], ["hij"]. *)
Lemma build_three_claimed_contents_refuted :
  ¬ (let w' := after (build_shards 3 ten_chars) fresh in
     primary_file w' 0 = Some (txt "abcd") ∧
     primary_file w' 1 = Some (txt "efg") ∧
     primary_file w' 2 = Some (txt "hij")).
Proof. intros [H _]. vm_compute in H. discriminate. Qed.

(** C2, amended: [build_shards(3, "abcdefghij")] on an empty disk writes
    the three shard files ["abc"], ["def"], ["ghij"], of sizes 3, 3 and 4
    (the odd character goes to the last shard), with the ranges of the
    index persisted, and the shard files concatenated in id order are
    ["abcdefghij"]. *)
Theorem build_three_shards :
  let index : gmap string entry :=
    list_to_map [("0", Entry 0 3); ("1", Entry 4 6); ("2", Entry 7 10)] in
  let files : gmap string text :=
    list_to_map [("0.txt", txt "abc"); ("1.txt", txt "def"); ("2.txt", txt "ghij")] in
  let w' := World index 10 0 (Some index) (Some files) in
  build_shards 3 ten_chars fresh = (Ok None, w') ∧
  (length <$> primary_file w' 0 = Some 3 ∧
   length <$> primary_file w' 1 = Some 3 ∧
   length <$> primary_file w' 2 = Some 4) ∧
  load_data_from_shards w' = (Ok ten_chars, w') ∧
  dataset 3 w' = Some ten_chars.
Proof. split_and!; vm_compute; reflexivity. Qed.

(** C4: with a non-empty mapping [build_shards] returns its message and
    leaves everything as it was: the mapping, the shard files and the
    persisted map file. *)
Theorem build_shards_rejected (count : Z) (data : text) (w : world) :
  mapping w ≠ ∅ →
  build_shards count data w = (Ok (Some already_sharded), w).
Proof.
  intros Hne. unfold build_shards, bind, gets.
  by rewrite decide_True.
Qed.

Lemma build_shards_rejected_witness :
  build_shards 5 ten_chars (after (build_shards 3 ten_chars) fresh)
  = (Ok (Some already_sharded), after (build_shards 3 ten_chars) fresh).
Proof.
  apply (build_shards_rejected 5 ten_chars (after (build_shards 3 ten_chars) fresh)).
  intros H. vm_compute in H. discriminate.
Defined.

(** C3, as stated, fails: [build_shards(2, "a")] succeeds and writes the
    pieces [""] and ["a"]; the position is still 0 when entry 1 is
    written, so that entry 1 starts at 0, which is the end of entry 0 and
    not one more. *)
Lemma gap_convention_refuted :
  ¬ (∀ w pieces w',
       structural_write w pieces w' → gap_convention (mapping w') pieces).
Proof.
  intros H.
  destruct (H fresh [txt ""; txt "a"] (after (build_shards 2 (txt "a")) fresh))
    as [_ Hgap].
  { eapply write_build with (count := 2%Z) (data := txt "a");
      vm_compute; reflexivity. }
  destruct (Hgap 1 (txt "a")) as (prev & cur & Hprev & Hcur & Hstart & _);
    [lia|done|].
  vm_compute in Hprev, Hcur. by simplify_eq.
Qed.

(** C3, amended: after every successful [build_shards], [add_shard] or
    [remove_shard] that writes [pieces], the entry of shard [i] ends at the
    number of characters of the pieces [0..i] and starts at the number of
    characters before it, plus one unless that number is 0; so, whenever
    the first piece is not empty, entry 0 starts at 0, and for every
    [i >= 1] entry [i] starts at the end of entry [i-1] plus one and
    [end - start + 1] is the length of piece [i]. *)
Theorem structural_write_gap_convention (w : world) (pieces : list text) (w' : world) :
  structural_write w pieces w' →
  index_of_pieces (mapping w') pieces ∧
  (∀ p, pieces !! 0 = Some p → p ≠ [] → gap_convention (mapping w') pieces).
Proof.
  intros Hw%structural_write_index. split; [done|].
  by apply index_gap_convention.
Qed.

Lemma structural_write_gap_convention_witness :
  let w' := after (build_shards 3 ten_chars) fresh in
  let pieces := [txt "abc"; txt "def"; txt "ghij"] in
  index_of_pieces (mapping w') pieces ∧
  (∀ p, pieces !! 0 = Some p → p ≠ [] → gap_convention (mapping w') pieces).
Proof.
  apply (structural_write_gap_convention fresh).
  eapply write_build with (count := 3%Z) (data := ten_chars);
    vm_compute; reflexivity.
Defined.

(** ** Adding and removing shards *)

(** C5 fails on eleven shards: [load_data_from_shards] reads the shards in
    the order of [sorted] on the id strings, in which ["10"] comes before
    ["2"]; [add_shard] splits the text read in that order, and the twelve
    shards it writes no longer hold the dataset, neither in numeric order
    of the ids nor in the order [load_data_from_shards] reads them. *)
Theorem add_shard_eleven_shards_reorders :
  dataset 11 eleven_shards = Some alphabet24 ∧
  get_shard_ids eleven_shards
  = (Ok ["0"; "1"; "10"; "2"; "3"; "4"; "5"; "6"; "7"; "8"; "9"], eleven_shards) ∧
  load_data_from_shards eleven_shards
  = (Ok (txt "abcduvwxefghijklmnopqrst"), eleven_shards) ∧
  (add_shard eleven_shards).1 = Ok tt ∧
  (get_shard_ids (after add_shard eleven_shards)).1
  = Ok ["0"; "1"; "10"; "11"; "2"; "3"; "4"; "5"; "6"; "7"; "8"; "9"] ∧
  dataset 12 (after add_shard eleven_shards) = Some (txt "abcduvwxefghijklmnopqrst") ∧
  dataset 12 (after add_shard eleven_shards) ≠ Some alphabet24 ∧
  (load_data_from_shards (after add_shard eleven_shards)).1
  = Ok (txt "abcdqrstuvwxefghijklmnop").
Proof. split_and!; try (vm_compute; reflexivity). vm_compute. discriminate. Qed.

(** C6 fails with replication: [remove_shard] deletes the primary file and
    the replica file of the highest shard and the index entry of the
    primary, and keeps the index entry of the replica, also in the
    persisted map. *)
Theorem remove_shard_keeps_replica_entry :
  let w := two_shards_one_level in
  let w' := after remove_shard w in
  get_shard_ids w = (Ok ["0"; "1"], w) ∧
  get_replication_ids w = (Ok ["0-1"; "1-1"], w) ∧
  (remove_shard w).1 = Ok tt ∧
  (data_dir w' ≫= (.!! "1.txt")) = None ∧
  (data_dir w' ≫= (.!! "1-1.txt")) = None ∧
  mapping w' !! "1" = None ∧
  mapping w' !! "1-1" = Some (Entry 3 4) ∧
  (mapfile w' ≫= (.!! "1-1")) = Some (Entry 3 4).
Proof. split_and!; vm_compute; reflexivity. Qed.

(** ** Replication *)

(** C7 fails on eleven shards: [add_replication] names the replica after
    the first character of the primary's file name, so that [10.txt] is
    copied to [1-1.txt]; ten replica files exist afterwards, none of them
    for shard [10], and the index has no entry [10-1]. *)
Theorem add_replication_eleven_shards :
  let w := eleven_shards in
  let w' := after add_replication w in
  get_shard_ids w
  = (Ok ["0"; "1"; "10"; "2"; "3"; "4"; "5"; "6"; "7"; "8"; "9"], w) ∧
  replication_level w = 0 ∧
  (add_replication w).1 = Ok tt ∧
  length (replica_files w') = 10 ∧
  (data_dir w' ≫= (.!! "10-1.txt")) = None ∧
  mapping w' !! "10-1" = None.
Proof. split_and!; vm_compute; reflexivity. Qed.

(** C8 fails once a level has been removed: [remove_replication] takes the
    level from the counter [replication_level], which it does not lower.
    With two levels, the first call deletes level 2; the second call finds
    the counter still at 2, deletes nothing and returns without an error,
    although level 1 is now the deepest level among the replica ids.  With
    one level, the call after the one that removed it finds only primary
    files and returns without an error as well. *)
Theorem remove_replication_stale_level :
  let w1 := after remove_replication one_shard_two_levels in
  let v1 := after remove_replication one_shard_one_level in
  (remove_replication one_shard_two_levels).1 = Ok tt ∧
  replica_files w1 = ["0-1.txt"] ∧
  find_highest_replication_level w1 = (Ok 1, w1) ∧
  replication_level w1 = 2 ∧
  remove_replication w1 = (Ok tt, w1) ∧
  (remove_replication one_shard_one_level).1 = Ok tt ∧
  replica_files v1 = [] ∧
  find_highest_replication_level v1 = (Ok 0, v1) ∧
  remove_replication v1 = (Ok tt, v1).
Proof. split_and!; vm_compute; reflexivity. Qed.

(** ** Reconciliation *)

(** C9 fails with a two-character shard id: [verify_primaries] looks for
    the id among the first characters of the file names, never finds
    ["10"] and copies the replica [10-1.txt] over [10.txt] on every call;
    [verify_replications] compares [10-1.txt] with [1.txt] and replaces it
    by a copy of [1.txt].  The first [sync_replication] succeeds; the second
    one then changes the primary of shard [10]. *)
Theorem sync_replication_twice_differs :
  let w0 := eleven_replicated in
  let w1 := after sync_replication w0 in
  let w2 := after sync_replication w1 in
  init (Some eleven_replicated_mapping) (Some eleven_replicated_files) = (Ok tt, w0) ∧
  dataset 11 w0 = Some alphabet24 ∧
  (sync_replication w0).1 = Ok tt ∧
  (sync_replication w1).1 = Ok tt ∧
  primary_file w1 10 = Some (txt "uvwx") ∧
  primary_file w2 10 = Some (txt "cd") ∧
  data_dir w2 ≠ data_dir w1.
Proof.
  split_and!; try (vm_compute; reflexivity).
  intros H. apply (f_equal (λ d, d ≫= (.!! "10.txt"))) in H.
  vm_compute in H. discriminate.
Qed.

(** ** Queries *)

(** C10: for the integer [0], the empty string and [None] (also the
    default), [get_shard_data] returns the whole mapping, which is what
    [get_all_shard_data] returns, whatever the mapping holds; it answers
    with the invalid-id message exactly for the arguments that are true
    and are not a key of the mapping (a non-zero integer never is one, a
    non-empty string when the mapping has no entry under it), and the
    message lists [get_shard_ids()]; for a non-empty string that is a key
    it answers with the entry of that key. *)
Theorem get_shard_data_falsy (shardnum : shardnum_arg) (w : world) :
  (get_shard_data PyNone w = (Ok (AllShardData (mapping w)), w) ∧
   get_shard_data (PyInt 0) w = (Ok (AllShardData (mapping w)), w) ∧
   get_shard_data (PyStr "") w = (Ok (AllShardData (mapping w)), w) ∧
   get_all_shard_data w = (Ok (mapping w), w)) ∧
  ((∃ ids, get_shard_data shardnum w = (Ok (InvalidShardID ids), w))
   ↔ match shardnum with
     | PyNone => False
     | PyInt z => z ≠ 0%Z
     | PyStr s => s ≠ "" ∧ mapping w !! s = None
     end) ∧
  (∀ ids, get_shard_data shardnum w = (Ok (InvalidShardID ids), w) →
     get_shard_ids w = (Ok ids, w)) ∧
  (∀ s e, shardnum = PyStr s → s ≠ "" → mapping w !! s = Some e →
     get_shard_data shardnum w = (Ok (ShardInfo (PyStr s) e), w)).
Proof.
  split; [done|].
  unfold get_shard_data, get_all_shard_data, bind, gets, get_shard_ids.
  split_and!.
  - destruct shardnum as [|z|s]; simpl.
    + split; [by intros [ids ?]|done].
    + case_bool_decide as Hz; simpl.
      * split; [by intros [ids ?]|done].
      * split; [done|]. intros _. by eexists.
    + case_bool_decide as Hs; simpl.
      * split; [by intros [ids ?]|by intros [? _]].
      * destruct (mapping w !! s) eqn:Hm; simpl.
        -- split; [by intros [ids ?]|by intros [_ ?]].
        -- split; [done|]. intros _. by eexists.
  - intros ids. destruct (falsy shardnum); simpl; [done|].
    destruct (mapping_get (mapping w) shardnum); simpl; [done|].
    by intros [= <-].
  - intros s e -> Hs Hm. simpl. rewrite bool_decide_eq_false_2 by done.
    simpl. by rewrite Hm.
Qed.

(** ** More on the splitter *)

Lemma py_range_nonpos (count : Z) : (count ≤ 0)%Z → py_range count = [].
Proof. intros H. unfold py_range. by replace (Z.to_nat count) with 0 by lia. Qed.

(** X1: a count of zero raises [ZeroDivisionError]; a negative count
    raises nothing and gives no piece at all. *)
Theorem generate_sharded_data_nonpositive (count : Z) (data : text) :
  (count ≤ 0)%Z →
  _generate_sharded_data count data
  = if decide (count = 0%Z) then Raise ZeroDivisionError else Ok [].
Proof.
  intros Hc. unfold _generate_sharded_data.
  destruct (Z.eqb_spec count 0) as [->|Hne]; [done|].
  rewrite decide_False by done. rewrite py_range_nonpos by done.
  assert (Z.of_nat (length data) `mod` count ≤ 0)%Z as Hrem.
  { apply Z.mod_neg_bound. lia. }
  by destruct (Z.ltb_spec 0 (Z.of_nat (length data) `mod` count)); [lia|].
Qed.

Lemma generate_sharded_data_nonpositive_witness :
  _generate_sharded_data (-3) (txt "abcdefghij")
  = if decide ((-3)%Z = 0%Z) then Raise ZeroDivisionError else Ok [].
Proof. apply (generate_sharded_data_nonpositive (-3) (txt "abcdefghij")). lia. Defined.

(** For a positive count the splitter returns [count] pieces whose
    concatenation is the data. *)
Lemma generate_sharded_data_pieces (data : text) (count : nat) :
  1 ≤ count →
  ∃ pieces,
    _generate_sharded_data (Z.of_nat count) data = Ok pieces ∧
    length pieces = count ∧
    concat pieces = data.
Proof.
  intros Hpos. destruct count as [|k]; [lia|].
  pose proof (generate_sharded_data_pos data k) as Hp. cbv zeta in Hp.
  eexists. split; [exact Hp|]. split.
  - rewrite length_app, even_slices_length. simpl. lia.
  - rewrite concat_app, even_slices_concat. simpl. rewrite app_nil_r.
    apply take_drop.
Qed.

(** X2: for every positive count, also one greater than the length of the
    data, the splitter returns [count] pieces that concatenate to the
    data; with more pieces than characters all pieces are empty but the
    last, which is the whole data. *)
Theorem generate_sharded_data_any_count (data : text) (count : nat) :
  1 ≤ count →
  ∃ pieces,
    _generate_sharded_data (Z.of_nat count) data = Ok pieces ∧
    length pieces = count ∧
    concat pieces = data ∧
    (length data < count →
     pieces = replicate (count - 1) [] ++ [data]).
Proof.
  intros Hpos. destruct count as [|k]; [lia|].
  pose proof (generate_sharded_data_pos data k) as Hp. cbv zeta in Hp.
  eexists. split; [exact Hp|]. split; [|split].
  - rewrite length_app, even_slices_length. simpl. lia.
  - rewrite concat_app, even_slices_concat. simpl. rewrite app_nil_r.
    apply take_drop.
  - intros Hlt. rewrite Nat.div_small by done. simpl.
    replace (k - 0) with k by lia. f_equal. symmetry.
    apply replicate_as_Forall. split; [apply even_slices_length|].
    unfold even_slices. apply Forall_fmap, Forall_forall. by intros i _.
Qed.

Lemma generate_sharded_data_any_count_witness :
  ∃ pieces,
    _generate_sharded_data 3 (txt "ab") = Ok pieces ∧
    length pieces = 3 ∧
    concat pieces = txt "ab" ∧
    (length (txt "ab") < 3 → pieces = replicate (3 - 1) [] ++ [txt "ab"]).
Proof. apply (generate_sharded_data_any_count (txt "ab") 3). lia. Defined.

(** ** The order of the ids *)

Lemma ascii_compare_N (a b : ascii) :
  Ascii.compare a b = N.compare (N_of_ascii a) (N_of_ascii b).
Proof. reflexivity. Qed.

Lemma string_compare_trans (s1 s2 s3 : string) :
  String.compare s1 s2 = Lt → String.compare s2 s3 = Lt → String.compare s1 s3 = Lt.
Proof.
  revert s2 s3. induction s1 as [|a s1 IH]; intros [|b s2] [|d s3]; simpl; try done.
  rewrite !ascii_compare_N.
  destruct (N.compare_spec (N_of_ascii a) (N_of_ascii b)) as [Hab|Hab|Hab];
    destruct (N.compare_spec (N_of_ascii b) (N_of_ascii d)) as [Hbd|Hbd|Hbd];
    try done; intros H1 H2.
  - rewrite Hab, Hbd, N.compare_refl. eauto.
  - rewrite Hab. by apply N.compare_lt_iff in Hbd as ->.
  - rewrite <- Hbd. by apply N.compare_lt_iff in Hab as ->.
  - assert (N_of_ascii a < N_of_ascii d)%N as ->%N.compare_lt_iff by lia. done.
Qed.

#[export] Instance str_le_trans : Transitive str_le.
Proof.
  intros x y z. unfold str_le, String.leb.
  destruct (String.compare x y) eqn:Hxy; try done;
    destruct (String.compare y z) eqn:Hyz; try done; intros _ _.
  - apply String.compare_eq_iff in Hxy as ->. by rewrite Hyz.
  - apply String.compare_eq_iff in Hxy as ->. by rewrite Hyz.
  - apply String.compare_eq_iff in Hyz as <-. by rewrite Hxy.
  - by rewrite (string_compare_trans x y z).
Qed.

#[export] Instance str_le_antisym : AntiSymm eq str_le.
Proof. intros x y. apply String.leb_antisym. Qed.

Lemma str_le_total (x y : string) : str_le x y ∨ str_le y x.
Proof. apply String.leb_total. Qed.

Lemma sorted_insert_perm (x : string) (l : list string) :
  sorted_insert x l ≡ₚ x :: l.
Proof.
  induction l as [|y l IH]; [done|]. simpl.
  destruct (String.leb x y); [done|]. rewrite IH. apply Permutation_swap.
Qed.

Lemma sorted_perm (l : list string) : sorted l ≡ₚ l.
Proof.
  induction l as [|x l IH]; [done|]. simpl.
  by rewrite sorted_insert_perm, IH.
Qed.

Lemma sorted_insert_sorted (x : string) (l : list string) :
  StronglySorted str_le l → StronglySorted str_le (sorted_insert x l).
Proof.
  induction 1 as [|y l Hs IH Hall]; simpl.
  - by repeat constructor.
  - destruct (String.leb x y) eqn:Hxy.
    + constructor; [by constructor|]. constructor; [done|].
      eapply Forall_impl; [exact Hall|]. intros z Hz. by etrans.
    + constructor; [done|].
      rewrite sorted_insert_perm. constructor; [|done].
      destruct (str_le_total x y) as [H|H]; [|done].
      unfold str_le in H. congruence.
Qed.

Lemma sorted_sorted (l : list string) : StronglySorted str_le (sorted l).
Proof.
  induction l as [|x l IH]; [constructor|]. simpl. by apply sorted_insert_sorted.
Qed.

(** [sorted] does not depend on the order of its argument. *)
Lemma sorted_of_perm (l1 l2 : list string) : l1 ≡ₚ l2 → sorted l1 = sorted l2.
Proof.
  intros Hp. apply (StronglySorted_unique str_le); try apply sorted_sorted.
  by rewrite !sorted_perm.
Qed.

Lemma sorted_id (l : list string) : StronglySorted str_le l → sorted l = l.
Proof.
  intros Hs. apply (StronglySorted_unique str_le); [apply sorted_sorted|done|].
  apply sorted_perm.
Qed.

(** X3: [get_shard_ids] and [get_replication_ids] split the keys of the
    mapping: the first returns the keys without ['-'], the second the keys
    with one, each key once, in ascending order of the strings; none of
    them changes the world. *)
Theorem shard_and_replication_ids (w : world) :
  ∃ ids reps,
    get_shard_ids w = (Ok ids, w) ∧
    get_replication_ids w = (Ok reps, w) ∧
    StronglySorted str_le ids ∧ StronglySorted str_le reps ∧
    NoDup (ids ++ reps) ∧
    (∀ key, key ∈ ids ↔ is_Some (mapping w !! key) ∧ has_dash key = false) ∧
    (∀ key, key ∈ reps ↔ is_Some (mapping w !! key) ∧ has_dash key = true).
Proof.
  do 2 eexists. split; [done|]. split; [done|].
  split; [apply sorted_sorted|]. split; [apply sorted_sorted|].
  assert (∀ key, key ∈ mapping_keys w ↔ is_Some (mapping w !! key)) as Hkeys.
  { intros key. unfold mapping_keys. rewrite list_elem_of_fmap. split.
    - intros ([k e] & -> & Hin%elem_of_map_to_list). by eexists.
    - intros [e He]. exists (key, e). by rewrite elem_of_map_to_list. }
  split; [|split].
  - rewrite sorted_perm, sorted_perm.
    apply NoDup_app. split; [|split].
    + apply NoDup_filter, NoDup_fst_map_to_list.
    + intros key [H1 _]%list_elem_of_filter [H2 _]%list_elem_of_filter. done.
    + apply NoDup_filter, NoDup_fst_map_to_list.
  - intros key. rewrite sorted_perm, list_elem_of_filter, Hkeys.
    destruct (has_dash key); simpl; intuition done.
  - intros key. rewrite sorted_perm, list_elem_of_filter, Hkeys.
    destruct (has_dash key); simpl; intuition done.
Qed.

(** ** What the file system calls and the reconciliation leave alone *)

Section frame.
Context {B : Type} (f : world → B).

Lemma preserves_ret {A} (a : A) : preserves f (ret a).
Proof. done. Qed.
Lemma preserves_raise {A} e : preserves f (@raise A e).
Proof. done. Qed.
Lemma preserves_lift {A} (r : result A) : preserves f (lift r).
Proof. done. Qed.
Lemma preserves_gets {A} (g : world → A) : preserves f (gets g).
Proof. done. Qed.
Lemma preserves_bind {A C} (m : M A) (k : A → M C) :
  preserves f m → (∀ a, preserves f (k a)) → preserves f (bind m k).
Proof.
  intros Hm Hk w. unfold bind. specialize (Hm w).
  destruct (m w) as [[a|e] w1]; simpl in *; [|done].
  by rewrite Hk.
Qed.
Lemma preserves_for_each {A} (l : list A) body :
  (∀ x, preserves f (body x)) → preserves f (for_each l body).
Proof.
  intros Hb. induction l as [|x l IH]; [done|].
  simpl. apply preserves_bind; auto.
Qed.
Lemma preserves_map_M {A C} (g : A → M C) l :
  (∀ x, preserves f (g x)) → preserves f (map_M g l).
Proof.
  intros Hg. induction l as [|x l IH]; [done|].
  simpl. repeat (apply preserves_bind; [auto|intros ?]). done.
Qed.

(** The component does not depend on the directory [data]. *)
Hypothesis f_files : ∀ d w, f (set_data_dir d w) = f w.

Lemma preserves_listdir : preserves f listdir.
Proof. intros w. unfold listdir. by destruct (data_dir w). Qed.
Lemma preserves_read_bytes name : preserves f (read_bytes name).
Proof. intros w. unfold read_bytes. by destruct (_ ≫= _). Qed.
Lemma preserves_read_file name : preserves f (read_file name).
Proof. intros w. unfold read_file, bind, read_bytes. by destruct (_ ≫= _). Qed.
Lemma preserves_write_file name d : preserves f (write_file name d).
Proof. intros w. unfold write_file. destruct (data_dir w); simpl; auto. Qed.
Lemma preserves_remove name : preserves f (remove name).
Proof.
  intros w. unfold remove. destruct (data_dir w); [|done].
  case_bool_decide; simpl; auto.
Qed.

Lemma preserves_find_highest_replication_level :
  preserves f find_highest_replication_level.
Proof.
  unfold find_highest_replication_level, get_replication_ids.
  repeat first
    [ apply preserves_gets | apply preserves_ret | apply preserves_lift
    | apply preserves_bind; [|intros ?]
    | apply preserves_map_M; intros ?
    | case_match ].
Qed.

Lemma preserves_sync_replication : preserves f sync_replication.
Proof.
  pose proof preserves_find_highest_replication_level.
  unfold sync_replication, verify_primaries, verify_replications,
    get_replication_ids, get_shard_ids, getsize, copyfile, path_exists.
  repeat first
    [ assumption
    | apply preserves_gets | apply preserves_ret | apply preserves_lift
    | apply preserves_listdir | apply preserves_read_bytes
    | apply preserves_write_file | apply preserves_remove
    | apply preserves_bind; [|intros ?]
    | apply preserves_for_each; intros ?
    | apply preserves_map_M; intros ?
    | case_match ].
Qed.
End frame.

(** X4: [sync_replication] touches nothing but the files of [data]: the
    mapping, the persisted map, the position and the replication level are
    the same after it, whether it returns or raises. *)
Theorem sync_replication_only_files (w : world) :
  let w' := (sync_replication w).2 in
  mapping w' = mapping w ∧ mapfile w' = mapfile w ∧
  last_char_position w' = last_char_position w ∧
  replication_level w' = replication_level w.
Proof.
  intros w'. split_and!.
  - by apply (preserves_sync_replication mapping).
  - by apply (preserves_sync_replication mapfile).
  - by apply (preserves_sync_replication last_char_position).
  - by apply (preserves_sync_replication replication_level).
Qed.

Lemma run_preserved {A B} (f : world → B) (m : M A) w r w' :
  preserves f m → m w = (r, w') → f w' = f w.
Proof. intros Hp Hm. specialize (Hp w). by rewrite Hm in Hp. Qed.

Lemma write_map_run (w : world) :
  write_map w = (Ok tt, set_mapfile (Some (mapping w)) w).
Proof. done. Qed.

Lemma written_synced_persisted w2 w3 w' u :
  write_map w2 = (Ok u, w3) → sync_replication w3 = (Ok tt, w') →
  mapfile w' = Some (mapping w').
Proof.
  intros Hm Hs. rewrite write_map_run in Hm. simplify_eq.
  rewrite (run_preserved mapfile _ _ _ _ (preserves_sync_replication mapfile ltac:(done)) Hs).
  by rewrite (run_preserved mapping _ _ _ _ (preserves_sync_replication mapping ltac:(done)) Hs).
Qed.

(** X5: after every mutating method that returns normally ([build_shards]
    that builds, [add_shard], [remove_shard], [add_replication],
    [remove_replication]) the persisted map is the mapping in memory. *)
Theorem completes_persisted (w w' : world) :
  completes w w' → mapfile w' = Some (mapping w').
Proof.
  destruct 1 as [count data w w' H|w w' H|w w' H|w w' H|w w' H].
  - unfold build_shards in H. bind_inv H. case_decide; [done|].
    bind_inv H. rewrite write_map_run in Hrun2. unfold ret in H. by simplify_eq.
  - unfold add_shard in H. bind_inv H. eauto using written_synced_persisted.
  - unfold remove_shard in H. bind_inv H. eauto using written_synced_persisted.
  - unfold add_replication in H. bind_inv H. rewrite write_map_run in H.
    by simplify_eq.
  - unfold remove_replication in H. bind_inv H. case_decide; [|done].
    bind_inv Hrun3. destruct a3. eauto using written_synced_persisted.
Qed.

Lemma completes_persisted_witness :
  mapfile (after add_replication two_shards_one_level)
  = Some (mapping (after add_replication two_shards_one_level)).
Proof.
  apply (completes_persisted two_shards_one_level).
  apply completes_add_replication. vm_compute. reflexivity.
Defined.

(** ** Names of shards and files *)

Lemma string_of_uint_contains (c : ascii) (d : Decimal.uint) :
  Forall (λ digit, Ascii.eqb digit c = false)
    (list_ascii_of_string "0123456789") →
  contains c (NilEmpty.string_of_uint d) = false.
Proof.
  rewrite Forall_forall. intros Hc.
  induction d; cbn [contains NilEmpty.string_of_uint]; [done|..];
    (rewrite Hc; [done|]); cbn [list_ascii_of_string];
    repeat first [apply list_elem_of_here | apply list_elem_of_further].
Qed.

Lemma py_str_contains (c : ascii) (n : nat) :
  Forall (λ digit, Ascii.eqb digit c = false)
    (list_ascii_of_string "0123456789") →
  contains c (py_str n) = false.
Proof.
  intros Hc. unfold py_str, NilZero.string_of_uint.
  destruct (Nat.to_uint n) eqn:Hd; try (rewrite <- Hd);
    try by apply string_of_uint_contains.
  cbn [contains]. apply Forall_cons_1 in Hc as [-> _]. done.
Qed.

Lemma py_str_no_dash (n : nat) : has_dash (py_str n) = false.
Proof. apply py_str_contains. by repeat constructor. Qed.

Lemma split_head_app (c : ascii) (s t : string) :
  contains c s = false → split_head c (s +:+ String c t) = s.
Proof.
  induction s as [|a s IH]; simpl.
  - by rewrite Ascii.eqb_refl.
  - destruct (Ascii.eqb a c); [done|]. intros H. by rewrite IH.
Qed.

Lemma contains_app (c : ascii) (s t : string) :
  contains c (s +:+ t) = contains c s || contains c t.
Proof. induction s as [|a s IH]; simpl; [done|]. by destruct (Ascii.eqb a c). Qed.

(** The name of the primary file of a shard. *)
Lemma shard_file_inj (i j : nat) :
  py_str i +:+ ".txt" = py_str j +:+ ".txt" → i = j.
Proof.
  intros H%(f_equal (split_head "."%char)).
  rewrite !split_head_app in H by (apply py_str_contains; by repeat constructor).
  by apply py_str_inj.
Qed.

Lemma shard_file_no_dash (i : nat) : has_dash (py_str i +:+ ".txt") = false.
Proof.
  pose proof (py_str_no_dash i) as H. unfold has_dash in *.
  by rewrite contains_app, H.
Qed.

(** ** The whole effect of writing the shards *)

Lemma write_from_world (l : list text) (k : nat) (w : world) :
  1 ≤ k →
  ∃ w', for_each (zip (seq k (length l)) l) (λ '(num, d), _write_shard num d) w
        = (Ok tt, w') ∧
    (∀ key, (∀ j, j < length l → key ≠ py_str (k + j)) →
       mapping w' !! key = mapping w !! key) ∧
    (∀ j piece, l !! j = Some piece →
       default ∅ (data_dir w') !! (py_str (k + j) +:+ ".txt") = Some piece) ∧
    (∀ name, (∀ j, j < length l → name ≠ py_str (k + j) +:+ ".txt") →
       default ∅ (data_dir w') !! name = default ∅ (data_dir w) !! name) ∧
    (l ≠ [] → is_Some (data_dir w')) ∧
    mapfile w' = mapfile w ∧ replication_level w' = replication_level w ∧
    last_char_position w' = (last_char_position w + total_length l)%Z.
Proof.
  revert k w. induction l as [|d l IH]; intros k w Hk.
  - eexists. split; [done|].
    split_and!; try done; try (by intros j piece; rewrite lookup_nil).
    unfold total_length. simpl. lia.
  - simpl. unfold bind at 1. rewrite write_shard_run. rewrite decide_False by lia.
    set (w1 := World _ _ _ _ _).
    destruct (IH (S k) w1) as (w' & Hrun & Hkeys & Hfiles & Hother & _ & Hmf & Hrl & Hpos);
      [lia|].
    exists w'. split; [done|]. split_and!.
    + intros key Hne. rewrite Hkeys.
      * subst w1. simpl. apply lookup_insert_ne. intros <-.
        apply (Hne 0); [simpl; lia|]. by rewrite Nat.add_0_r.
      * intros j Hj. replace (S k + j) with (k + S j) by lia. apply Hne. simpl. lia.
    + intros [|j] piece Hj.
      * simpl in Hj. simplify_eq. rewrite Nat.add_0_r, Hother.
        -- subst w1. simpl. apply lookup_insert_eq.
        -- intros j Hj Heq%shard_file_inj. lia.
      * simpl in Hj. replace (k + S j) with (S k + j) by lia. by apply Hfiles.
    + intros name Hne. rewrite Hother.
      * subst w1. simpl. apply lookup_insert_ne. intros <-.
        apply (Hne 0); [simpl; lia|]. by rewrite Nat.add_0_r.
      * intros j Hj. replace (S k + j) with (k + S j) by lia. apply Hne. simpl. lia.
    + intros _. destruct l as [|d' l].
      * simpl in Hrun. unfold ret in Hrun. simplify_eq. by eexists.
      * destruct (IH (S k) w1) as (w'' & Hrun' & _ & _ & _ & Hs & _); [lia|].
        rewrite Hrun in Hrun'. simplify_eq. by apply Hs.
    + by rewrite Hmf.
    + by rewrite Hrl.
    + rewrite Hpos. subst w1. simpl. rewrite total_length_cons. lia.
Qed.

Lemma write_shards_world (pieces : list text) (w : world) :
  ∃ w', write_shards pieces w = (Ok tt, w') ∧
    index_of_pieces (mapping w') pieces ∧
    (∀ key, (∀ i, i < length pieces → key ≠ py_str i) →
       mapping w' !! key = mapping w !! key) ∧
    (∀ i piece, pieces !! i = Some piece →
       default ∅ (data_dir w') !! (py_str i +:+ ".txt") = Some piece) ∧
    (∀ name, (∀ i, i < length pieces → name ≠ py_str i +:+ ".txt") →
       default ∅ (data_dir w') !! name = default ∅ (data_dir w) !! name) ∧
    (pieces ≠ [] →
       is_Some (data_dir w') ∧ last_char_position w' = total_length pieces) ∧
    (pieces = [] → w' = w) ∧
    mapfile w' = mapfile w ∧ replication_level w' = replication_level w.
Proof.
  destruct (write_shards_run pieces w) as (w' & Hrun & Hidx & Hnil).
  exists w'. split; [done|]. split; [done|].
  unfold write_shards, enumerate in Hrun. destruct pieces as [|p rest].
  { rewrite Hnil by done. split_and!; try done; intros i piece; by rewrite lookup_nil. }
  simpl in Hrun. unfold bind at 1 in Hrun. rewrite write_shard_run in Hrun.
  simpl in Hrun. set (w1 := World _ _ _ _ _) in Hrun.
  destruct (write_from_world rest 1 w1) as
    (w'' & Hrun' & Hkeys & Hfiles & Hother & _ & Hmf & Hrl & Hpos); [lia|].
  rewrite Hrun in Hrun'. simplify_eq. split_and!; try done.
  - intros key Hne. rewrite Hkeys.
    + subst w1. simpl. apply lookup_insert_ne. intros <-. apply (Hne 0); simpl; [lia|done].
    + intros j Hj. apply Hne. simpl. lia.
  - intros [|i] piece Hi.
    + simpl in Hi. simplify_eq. rewrite Hother.
      * subst w1. simpl. apply lookup_insert_eq.
      * intros j Hj Heq%shard_file_inj. lia.
    + simpl in Hi. by apply (Hfiles i).
  - intros name Hne. rewrite Hother.
    + subst w1. simpl. apply lookup_insert_ne. intros <-. apply (Hne 0); simpl; [lia|done].
    + intros j Hj. apply Hne. simpl. lia.
  - intros _. split.
    + destruct rest as [|d' l].
      * simpl in Hrun. unfold ret in Hrun. simplify_eq. by eexists.
      * destruct (write_from_world (d' :: l) 1 w1) as (w2 & Hrun2 & _ & _ & _ & Hs & _);
          [lia|]. rewrite Hrun in Hrun2. simplify_eq. by apply Hs.
    + rewrite Hpos. subst w1. simpl. rewrite total_length_cons. lia.
Qed.

Lemma total_length_concat (pieces : list text) (data : text) :
  concat pieces = data → total_length pieces = Z.of_nat (length data).
Proof. by intros <-. Qed.

(** ** Building, in full *)

(** The world that [build_shards] leaves on an empty mapping. *)
Lemma build_shards_world (count : nat) (data : text) (w : world) :
  mapping w = ∅ → 1 ≤ count →
  ∃ pieces w',
    _generate_sharded_data (Z.of_nat count) data = Ok pieces ∧
    build_shards (Z.of_nat count) data w = (Ok None, w') ∧
    (∀ key, is_Some (mapping w' !! key) ↔ ∃ i, i < count ∧ key = py_str i) ∧
    (∀ i piece, pieces !! i = Some piece →
       (data_dir w' ≫= (.!! (py_str i +:+ ".txt"))) = Some piece) ∧
    (∀ name, (∀ i, i < count → name ≠ py_str i +:+ ".txt") →
       (data_dir w' ≫= (.!! name)) = (data_dir w ≫= (.!! name))) ∧
    last_char_position w' = Z.of_nat (length data) ∧
    replication_level w' = replication_level w ∧
    mapfile w' = Some (mapping w').
Proof.
  intros Hempty Hcount.
  destruct (generate_sharded_data_pieces data count Hcount)
    as (pieces & Hgen & Hlen & Hcat).
  destruct (write_shards_world pieces w)
    as (w1 & Hrun & Hidx & Hkeys & Hfiles & Hother & Hne & _ & Hmf & Hrl).
  assert (pieces ≠ []) as Hp by (intros ->; simpl in Hlen; lia).
  destruct (Hne Hp) as [[fs Hfs] Hpos].
  exists pieces, (set_mapfile (Some (mapping w1)) w1).
  split; [done|]. split.
  { unfold build_shards, bind, gets. rewrite decide_False by (by intros []).
    unfold lift. rewrite Hgen, Hrun. done. }
  simpl. rewrite Hfs in *. simpl in *. split_and!; try done.
  - intros key. split.
    + intros Hsome.
      destruct (decide (key ∈ py_str <$> seq 0 count)) as [Hin|Hno].
      * apply list_elem_of_fmap in Hin as (i & -> & Hi%elem_of_seq).
        exists i. split; [lia|done].
      * rewrite Hkeys, Hempty in Hsome; [by destruct Hsome|].
        intros i Hi ->. apply Hno, list_elem_of_fmap. exists i.
        split; [done|]. apply elem_of_seq. lia.
    + intros (i & Hi & ->).
      assert (is_Some (pieces !! i)) as [piece Hpiece]
        by (apply lookup_lt_is_Some; lia).
      rewrite (Hidx _ _ Hpiece). by eexists.
  - intros name Hname. rewrite Hother by (intros i Hi; apply Hname; lia).
    by destruct (data_dir w).
  - rewrite Hpos. by apply total_length_concat.
Qed.

(** X6: on an empty mapping [build_shards] with a positive count always
    builds: it returns [None]; the keys of the mapping are then the ids
    [0] to [count - 1]; the file of shard [i] holds piece [i] of the
    splitter and no other file is touched; the position is the length of
    the data; the mapping is persisted. *)
Theorem build_shards_builds (count : nat) (data : text) (w : world) :
  mapping w = ∅ → 1 ≤ count →
  ∃ pieces w',
    _generate_sharded_data (Z.of_nat count) data = Ok pieces ∧
    build_shards (Z.of_nat count) data w = (Ok None, w') ∧
    (∀ key, is_Some (mapping w' !! key) ↔ ∃ i, i < count ∧ key = py_str i) ∧
    (∀ i piece, pieces !! i = Some piece →
       (data_dir w' ≫= (.!! (py_str i +:+ ".txt"))) = Some piece) ∧
    (∀ name, (∀ i, i < count → name ≠ py_str i +:+ ".txt") →
       (data_dir w' ≫= (.!! name)) = (data_dir w ≫= (.!! name))) ∧
    last_char_position w' = Z.of_nat (length data) ∧
    replication_level w' = replication_level w ∧
    mapfile w' = Some (mapping w').
Proof. apply build_shards_world. Qed.

Lemma build_shards_builds_witness :
  ∃ pieces w',
    _generate_sharded_data 3 ten_chars = Ok pieces ∧
    build_shards 3 ten_chars fresh = (Ok None, w') ∧
    (∀ key, is_Some (mapping w' !! key) ↔ ∃ i, i < 3 ∧ key = py_str i) ∧
    (∀ i piece, pieces !! i = Some piece →
       (data_dir w' ≫= (.!! (py_str i +:+ ".txt"))) = Some piece) ∧
    (∀ name, (∀ i, i < 3 → name ≠ py_str i +:+ ".txt") →
       (data_dir w' ≫= (.!! name)) = (data_dir fresh ≫= (.!! name))) ∧
    last_char_position w' = Z.of_nat (length ten_chars) ∧
    replication_level w' = replication_level fresh ∧
    mapfile w' = Some (mapping w').
Proof. apply (build_shards_builds 3 ten_chars fresh); [done|lia]. Defined.

(** ** Reading back what was built *)

Lemma mapping_keys_elem (w : world) (key : string) :
  key ∈ mapping_keys w ↔ is_Some (mapping w !! key).
Proof.
  unfold mapping_keys. rewrite list_elem_of_fmap. split.
  - intros ([k e] & -> & Hin%elem_of_map_to_list). by eexists.
  - intros [e He]. exists (key, e). by rewrite elem_of_map_to_list.
Qed.

Lemma filter_none {A} (P : A → Prop) `{!∀ x, Decision (P x)} (l : list A) :
  Forall (λ x, ¬ P x) l → filter P l = [].
Proof.
  induction 1 as [|x l Hx _ IH]; [done|]. rewrite filter_cons.
  by rewrite decide_False.
Qed.

(** The ids of a mapping whose keys are known and have no ['-']. *)
Lemma ids_of_keys (w : world) (keys : list string) :
  NoDup keys →
  (∀ key, is_Some (mapping w !! key) ↔ key ∈ keys) →
  Forall (λ key, has_dash key = false) keys →
  get_shard_ids w = (Ok (sorted keys), w) ∧
  get_replication_ids w = (Ok [], w).
Proof.
  intros Hnd Hkeys Hdash. rewrite Forall_forall in Hdash.
  unfold get_shard_ids, get_replication_ids, gets. split.
  - do 2 f_equal. apply sorted_of_perm, NoDup_Permutation; [|done|].
    + apply NoDup_filter, NoDup_fst_map_to_list.
    + intros key. rewrite list_elem_of_filter, mapping_keys_elem, Hkeys.
      split; [by intros [_ ?]|]. intros Hin. split; [|done].
      rewrite (Hdash _ Hin). exact id.
  - do 2 f_equal. replace (filter _ _) with (@nil string); [done|].
    symmetry. apply filter_none, Forall_forall.
    intros key Hin%mapping_keys_elem%Hkeys%Hdash. rewrite Hin. exact id.
Qed.

Lemma shard_names_NoDup (count : nat) : NoDup (py_str <$> seq 0 count).
Proof.
  apply NoDup_fmap_2; [|apply NoDup_seq]. intros i j. apply py_str_inj.
Qed.

Lemma shard_names_no_dash (count : nat) :
  Forall (λ key, has_dash key = false) (py_str <$> seq 0 count).
Proof. apply Forall_fmap, Forall_forall. intros i _. apply py_str_no_dash. Qed.

(** Up to ten shards the ids are single digits, in order as they are. *)
Lemma shard_names_sorted (count : nat) :
  count ≤ 10 → sorted (py_str <$> seq 0 count) = py_str <$> seq 0 count.
Proof.
  intros Hc. do 11 (destruct count as [|count]; [vm_compute; reflexivity|]). lia.
Qed.

(** ** Reading in text mode *)

Lemma universal_newlines_clean (d : text) :
  CR ∉ d → universal_newlines d = d.
Proof.
  induction d as [|c d IH]; [done|]. intros Hc. cbn [universal_newlines].
  rewrite decide_False by (intros ->; apply Hc; by left).
  f_equal. apply IH. intros H. apply Hc. by right.
Qed.

Lemma universal_newlines_no_CR (d : text) : CR ∉ universal_newlines d.
Proof.
  assert (∀ n (d : text), length d ≤ n → CR ∉ universal_newlines d) as H.
  { induction n as [|n IH]; intros [|c rest] Hlen; simpl in Hlen;
      try lia; try (by intros H; inversion H).
    cbn [universal_newlines]. case_decide as Hc.
    - destruct rest as [|c' rest']; [|case_decide];
        intros [Heq|Hin]%elem_of_cons; try (by inversion Heq);
        try (by inversion Hin); revert Hin; apply IH; simpl in *; lia.
    - intros [Heq|Hin]%elem_of_cons; [done|]. revert Hin. apply IH. lia. }
  by apply (H (length d)).
Qed.

Lemma concat_no_CR (pieces : list text) :
  CR ∉ concat pieces ↔ Forall (λ piece, CR ∉ piece) pieces.
Proof.
  rewrite Forall_forall. setoid_rewrite list_elem_of_In. rewrite in_concat.
  split.
  - intros Hno piece Hp Hc. apply Hno. by exists piece.
  - intros Hall (piece & Hp & Hc). by apply (Hall piece).
Qed.

Lemma read_file_run (name : string) (d : text) (w : world) :
  (data_dir w ≫= (.!! name)) = Some d →
  read_file name w = (Ok (universal_newlines d), w).
Proof. intros Hd. unfold read_file, bind, read_bytes. by rewrite Hd. Qed.

Lemma read_file_reads (name : string) (w : world) : (read_file name w).2 = w.
Proof. unfold read_file, bind, read_bytes. by destruct (_ ≫= _). Qed.

Lemma read_file_set_mapping (name : string) (m : gmap string entry) (w : world) :
  (read_file name (set_mapping m w)).1 = (read_file name w).1.
Proof. unfold read_file, bind, read_bytes. simpl. by destruct (_ ≫= _). Qed.

Lemma read_file_no_CR (name : string) (w : world) (c : text) :
  (read_file name w).1 = Ok c → CR ∉ c.
Proof.
  unfold read_file, bind, read_bytes. destruct (_ ≫= _); [|done].
  intros [= <-]. apply universal_newlines_no_CR.
Qed.

Lemma contents_no_CR (names : list string) (contents : list text) (w : world) :
  Forall2 (λ name d, (read_file (name +:+ ".txt") w).1 = Ok d) names contents →
  CR ∉ concat contents.
Proof.
  intros H. apply concat_no_CR.
  induction H; constructor; [by eapply read_file_no_CR|done].
Qed.

Lemma map_M_read_files (names : list string) (contents : list text) (w : world) :
  Forall2 (λ name d, (read_file (name +:+ ".txt") w).1 = Ok d) names contents →
  map_M (λ db, read_file (db +:+ ".txt")) names w = (Ok contents, w).
Proof.
  induction 1 as [|name d names contents Hd _ IH]; [done|].
  assert (read_file (name +:+ ".txt") w = (Ok d, w)) as Hr.
  { pose proof (read_file_reads (name +:+ ".txt") w) as Hw.
    destruct (read_file _ w); simpl in *; congruence. }
  cbn [map_M]. unfold bind. by rewrite Hr, IH.
Qed.

(** The ids and the data read back after [build_shards]. *)
Lemma build_then_ids (count : nat) (data : text) (w : world) :
  mapping w = ∅ → 1 ≤ count ≤ 10 →
  ∃ pieces w',
    _generate_sharded_data (Z.of_nat count) data = Ok pieces ∧
    build_shards (Z.of_nat count) data w = (Ok None, w') ∧
    get_shard_ids w' = (Ok (py_str <$> seq 0 count), w') ∧
    load_data_from_shards w'
    = (Ok (concat (universal_newlines <$> pieces)), w') ∧
    (CR ∉ data → load_data_from_shards w' = (Ok data, w')).
Proof.
  intros Hempty [Hpos Hten].
  destruct (build_shards_world count data w Hempty Hpos)
    as (pieces & w' & Hgen & Hbuild & Hkeys & Hfiles & _).
  destruct (generate_sharded_data_pieces data count Hpos)
    as (pieces' & Hgen' & Hlen & Hcat).
  rewrite Hgen in Hgen'. injection Hgen' as <-.
  exists pieces, w'. split; [done|]. split; [done|].
  destruct (ids_of_keys w' (py_str <$> seq 0 count)) as [Hids _].
  { apply shard_names_NoDup. }
  { intros key. rewrite Hkeys, list_elem_of_fmap. split.
    - intros (i & Hi & ->). exists i. split; [done|]. apply elem_of_seq. lia.
    - intros (i & -> & Hi%elem_of_seq). exists i. split; [lia|done]. }
  { apply shard_names_no_dash. }
  rewrite shard_names_sorted in Hids by done. split; [done|].
  assert (load_data_from_shards w'
          = (Ok (concat (universal_newlines <$> pieces)), w')) as Hload.
  { unfold load_data_from_shards, bind. rewrite Hids.
    rewrite (map_M_read_files _ (universal_newlines <$> pieces)); [done|].
    apply Forall2_same_length_lookup_2.
    - by rewrite !length_fmap, length_seq.
    - intros i name piece Hname Hpiece.
      rewrite list_lookup_fmap in Hname. rewrite list_lookup_fmap in Hpiece.
      destruct (seq 0 count !! i) as [j|] eqn:Hj; [|done].
      apply lookup_seq in Hj as [-> _]. simpl in Hname.
      destruct (pieces !! i) as [p|] eqn:Hp; [|done].
      simpl in Hpiece. simplify_eq.
      by rewrite (read_file_run _ p) by by apply Hfiles. }
  split; [done|]. intros Hclean. rewrite Hload. do 2 f_equal.
  rewrite <- Hcat in Hclean. apply concat_no_CR in Hclean.
  rewrite <- Hcat. f_equal. rewrite <- (list_fmap_id pieces) at 2.
  apply Forall_fmap_ext_1. eapply Forall_impl; [exact Hclean|].
  intros piece. apply universal_newlines_clean.
Qed.

(** X7: with at most ten shards, what [build_shards] builds on an empty
    mapping is read back by [load_data_from_shards] shard by shard in
    text mode: the ids are [0] to [count - 1] in this order and the
    result is the concatenation of the pieces, in each of which ['\r\n']
    and ['\r'] have become ['\n']; it is the data when the data holds no
    ['\r']. *)
Theorem build_then_load (count : nat) (data : text) (w : world) :
  mapping w = ∅ → 1 ≤ count ≤ 10 →
  ∃ pieces w',
    _generate_sharded_data (Z.of_nat count) data = Ok pieces ∧
    build_shards (Z.of_nat count) data w = (Ok None, w') ∧
    get_shard_ids w' = (Ok (py_str <$> seq 0 count), w') ∧
    load_data_from_shards w'
    = (Ok (concat (universal_newlines <$> pieces)), w') ∧
    (CR ∉ data → load_data_from_shards w' = (Ok data, w')).
Proof. apply build_then_ids. Qed.

Lemma build_then_load_witness :
  ∃ pieces w',
    _generate_sharded_data 1 ["a"; CR; "b"]%char = Ok pieces ∧
    build_shards 1 ["a"; CR; "b"]%char fresh = (Ok None, w') ∧
    get_shard_ids w' = (Ok (py_str <$> seq 0 1), w') ∧
    load_data_from_shards w'
    = (Ok (concat (universal_newlines <$> pieces)), w') ∧
    (CR ∉ ["a"; CR; "b"]%char →
     load_data_from_shards w' = (Ok ["a"; CR; "b"]%char, w')).
Proof. apply (build_then_load 1 ["a"; CR; "b"]%char fresh); [done|lia]. Defined.

(** A handler constructed on what [build_shards] left. *)
Lemma init_after_build (count : nat) (data : text) (w : world) :
  mapping w = ∅ → 1 ≤ count →
  ∃ w',
    build_shards (Z.of_nat count) data w = (Ok None, w') ∧
    init (mapfile w') (data_dir w')
    = (Ok tt, World (mapping w') 0 0 (mapfile w') (data_dir w')).
Proof.
  intros Hempty Hpos.
  destruct (build_shards_world count data w Hempty Hpos)
    as (pieces & w' & Hgen & Hbuild & Hkeys & _ & _ & _ & _ & Hmf).
  exists w'. split; [done|].
  destruct (ids_of_keys (World (mapping w') 0 0 (mapfile w') (data_dir w'))
              (py_str <$> seq 0 count)) as [_ Hreps].
  { apply shard_names_NoDup. }
  { intros key. simpl. rewrite Hkeys, list_elem_of_fmap. split.
    - intros (i & Hi & ->). exists i. split; [done|]. apply elem_of_seq. lia.
    - intros (i & -> & Hi%elem_of_seq). exists i. split; [lia|done]. }
  { apply shard_names_no_dash. }
  rewrite Hmf in *.
  unfold init, bind, load_map, gets, modify, find_highest_replication_level.
  simpl. unfold set_mapping, set_last_char_position. simpl.
  unfold bind. rewrite Hreps. done.
Qed.

(** X8: a handler constructed on the disk that [build_shards] leaves has
    the mapping that was built, position 0 and replication level 0. *)
Theorem build_then_init (count : nat) (data : text) (w : world) :
  mapping w = ∅ → 1 ≤ count →
  ∃ w',
    build_shards (Z.of_nat count) data w = (Ok None, w') ∧
    init (mapfile w') (data_dir w')
    = (Ok tt, World (mapping w') 0 0 (mapfile w') (data_dir w')).
Proof. apply init_after_build. Qed.

Lemma build_then_init_witness :
  ∃ w',
    build_shards 3 ten_chars fresh = (Ok None, w') ∧
    init (mapfile w') (data_dir w')
    = (Ok tt, World (mapping w') 0 0 (mapfile w') (data_dir w')).
Proof. apply (build_then_init 3 ten_chars fresh); [done|lia]. Defined.

(** ** Computations that only read *)

Lemma preserves_run {A} (m : M A) (w : world) :
  preserves (λ w, w) m → m w = ((m w).1, w).
Proof. intros Hp. specialize (Hp w). by destruct (m w) as [r w']; simplify_eq/=. Qed.

Lemma shard_keys_reads : preserves (λ w, w) shard_keys.
Proof.
  unfold shard_keys, get_shard_ids.
  apply preserves_bind; [apply preserves_gets|intros ids].
  apply preserves_map_M. intros z. apply preserves_lift.
Qed.

Lemma find_highest_replication_level_reads :
  preserves (λ w, w) find_highest_replication_level.
Proof. apply preserves_find_highest_replication_level. Qed.

(** ** The replication level read from the ids *)

Lemma last_char_one (s r : string) :
  last_char s = Ok r → ∃ c, r = String c EmptyString.
Proof.
  induction s as [|a s IH]; [done|]. simpl.
  destruct s; [intros [= <-]; by eexists|done].
Qed.

Lemma map_M_lift_Forall {A C} (g : A → result C) (P : C → Prop) l w r w' :
  (∀ x y, g x = Ok y → P y) →
  map_M (λ x, lift (g x)) l w = (Ok r, w') → Forall P r.
Proof.
  intros Hg. revert r w w'. induction l as [|x l IH]; intros r w w' H.
  - injection H as <- <-. constructor.
  - simpl in H. bind_inv H. unfold ret in H. simplify_eq.
    constructor; [|by eapply IH]. unfold lift in *. simplify_eq. by eapply Hg.
Qed.

Lemma py_max_elem {A} (ge : A → A → bool) (l : list A) (m : A) :
  py_max ge l = Ok m → m ∈ l.
Proof.
  destruct l as [|x l]; [done|]. intros [= <-].
  assert (∀ l' x', foldl (λ m y, if ge m y then m else y) x' l' ∈ x' :: l') as H.
  { induction l' as [|y l' IH]; intros x'; simpl; [left|].
    specialize (IH (if ge x' y then x' else y)).
    apply elem_of_cons in IH as [->|IH].
    - destruct (ge x' y); [left|right; left].
    - by do 2 right. }
  apply H.
Qed.

Lemma py_int_one_char (c : ascii) (n : nat) :
  py_int (String c EmptyString) = Ok n → n ≤ 9.
Proof.
  unfold py_int. simpl.
  destruct c as [[] [] [] [] [] [] [] []]; vm_compute; intros [= <-]; lia.
Qed.

(** X9: [find_highest_replication_level] reads the level off the last
    character of the replica ids only: it changes nothing, returns 0 when
    the mapping has no replica id, and never returns more than 9. *)
Theorem find_highest_replication_level_bound (w : world) :
  (find_highest_replication_level w).2 = w ∧
  ((∀ key, is_Some (mapping w !! key) → has_dash key = false) →
   find_highest_replication_level w = (Ok 0, w)) ∧
  (∀ level, (find_highest_replication_level w).1 = Ok level → level ≤ 9).
Proof.
  split; [apply find_highest_replication_level_reads|]. split.
  - intros Hkeys. unfold find_highest_replication_level, bind, get_replication_ids, gets.
    rewrite filter_none; [done|]. apply Forall_forall.
    intros key Hin%mapping_keys_elem%Hkeys. rewrite Hin. exact id.
  - intros level. unfold find_highest_replication_level.
    destruct (get_replication_ids w) as [[ids|e] w1] eqn:Hids;
      unfold bind at 1; rewrite Hids; [|done].
    destruct ids as [|id ids]; [intros [= <-]; lia|].
    destruct (bind _ _ w1) as [r w2] eqn:Hrun. simpl. intros ->.
    apply bind_Ok in Hrun as (lasts & w3 & Hlasts & Hrun).
    apply bind_Ok in Hrun as (mx & w4 & Hmax & Hint).
    unfold lift in Hmax, Hint.
    injection Hmax as Hmax _. injection Hint as Hint _.
    apply py_max_elem in Hmax.
    eapply map_M_lift_Forall in Hlasts; [|apply last_char_one].
    rewrite Forall_forall in Hlasts. destruct (Hlasts _ Hmax) as [c ->].
    by eapply py_int_one_char.
Qed.

(** ** Reconciliation without replicas *)

(** X10: when no key of the mapping has a ['-'], [sync_replication] does
    nothing at all: a primary that is missing stays missing. *)
Theorem sync_replication_without_replicas (w : world) :
  Forall (λ key, has_dash key = false) (mapping_keys w) →
  sync_replication w = (Ok tt, w).
Proof.
  intros Hkeys. unfold sync_replication, bind, get_replication_ids, gets.
  rewrite filter_none; [done|]. eapply Forall_impl; [exact Hkeys|].
  intros key ->. exact id.
Qed.

Lemma sync_replication_without_replicas_witness :
  sync_replication (set_data_dir (Some ∅) (after (build_shards 3 ten_chars) fresh))
  = (Ok tt, set_data_dir (Some ∅) (after (build_shards 3 ten_chars) fresh)).
Proof.
  apply (sync_replication_without_replicas
           (set_data_dir (Some ∅) (after (build_shards 3 ten_chars) fresh))).
  vm_compute. repeat constructor.
Defined.

(** ** Errors of the structural methods *)

Lemma bind_run {A B} (m : M A) (k : A → M B) w a w' :
  m w = (Ok a, w') → bind m k w = k a w'.
Proof. unfold bind. by intros ->. Qed.

Lemma bind_raise {A B} (m : M A) (k : A → M B) w e w' :
  m w = (Raise e, w') → bind m k w = (Raise e, w').
Proof. unfold bind. by intros ->. Qed.

(** The first two lines of [add_shard], [remove_shard] and
    [remove_replication]: the mapping is reloaded. *)
Lemma reload_run {B} (k : M B) (w : world) :
  (m <- load_map ;; modify (set_mapping m) ;; k) w
  = k (set_mapping (default ∅ (mapfile w)) w).
Proof. done. Qed.

Lemma load_data_run (ids : list string) (contents : list text) (w : world) :
  get_shard_ids w = (Ok ids, w) →
  Forall2 (λ name d, (read_file (name +:+ ".txt") w).1 = Ok d) ids contents →
  load_data_from_shards w = (Ok (concat contents), w).
Proof.
  intros Hids Hfiles. unfold load_data_from_shards.
  rewrite (bind_run _ _ _ _ _ Hids).
  by rewrite (bind_run _ _ _ _ _ (map_M_read_files _ _ _ Hfiles)).
Qed.

Lemma map_M_py_int (keys : list nat) (w : world) :
  map_M (λ z, lift (py_int z)) (py_str <$> keys) w = (Ok keys, w).
Proof.
  induction keys as [|key keys IH]; [done|]. rewrite fmap_cons. cbn [map_M].
  assert (lift (py_int (py_str key)) w = (Ok key, w)) as Hk
    by (unfold lift; by rewrite py_int_str).
  rewrite (bind_run _ _ _ _ _ Hk). by rewrite (bind_run _ _ _ _ _ IH).
Qed.

Lemma shard_keys_run (keys : list nat) (w : world) :
  get_shard_ids w = (Ok (py_str <$> keys), w) →
  shard_keys w = (Ok keys, w).
Proof.
  intros Hids. unfold shard_keys. rewrite (bind_run _ _ _ _ _ Hids).
  apply map_M_py_int.
Qed.

(** X11: when the persisted map has no shard id (for instance when there
    is no [mapping.json] yet), [add_shard] and [remove_shard] raise
    [ValueError] (the [max] of no key); they have reloaded the mapping and
    touched nothing else. *)
Theorem add_remove_shard_without_shards (w : world) :
  let w1 := set_mapping (default ∅ (mapfile w)) w in
  Forall (λ key, has_dash key = true) (mapping_keys w1) →
  add_shard w = (Raise ValueError, w1) ∧
  remove_shard w = (Raise ValueError, w1).
Proof.
  intros w1 Hkeys.
  assert (get_shard_ids w1 = (Ok [], w1)) as Hids.
  { unfold get_shard_ids, gets. rewrite filter_none; [done|].
    eapply Forall_impl; [exact Hkeys|]. intros key Hd H. apply H. by rewrite Hd. }
  pose proof (load_data_run [] [] w1 Hids ltac:(constructor)) as Hload.
  pose proof (shard_keys_run [] w1 Hids) as Hk.
  unfold add_shard, remove_shard. rewrite !reload_run. fold w1.
  rewrite !(bind_run _ _ _ _ _ Hload), !(bind_run _ _ _ _ _ Hk). done.
Qed.

Lemma add_remove_shard_without_shards_witness :
  add_shard fresh = (Raise ValueError, set_mapping (default ∅ (mapfile fresh)) fresh) ∧
  remove_shard fresh = (Raise ValueError, set_mapping (default ∅ (mapfile fresh)) fresh).
Proof. apply (add_remove_shard_without_shards fresh). vm_compute. constructor. Defined.

(** X12: [remove_shard] on a setup whose only shard id is ["0"] asks the
    splitter for zero pieces: it raises [ZeroDivisionError] before any file
    or entry is removed. *)
Theorem remove_shard_last_shard (w : world) (data : text) :
  let w1 := set_mapping (default ∅ (mapfile w)) w in
  filter (λ key, ¬ has_dash key) (mapping_keys w1) = ["0"] →
  (data_dir w ≫= (.!! "0.txt")) = Some data →
  remove_shard w = (Raise ZeroDivisionError, w1).
Proof.
  intros w1 Hkeys Hfile.
  assert (get_shard_ids w1 = (Ok (py_str <$> [0]), w1)) as Hids.
  { unfold get_shard_ids, gets. by rewrite Hkeys. }
  pose proof (load_data_run _ [universal_newlines data] w1 Hids) as Hload.
  pose proof (shard_keys_run [0] w1 Hids) as Hk.
  unfold remove_shard. rewrite reload_run. fold w1.
  rewrite (bind_run _ _ _ _ _ (Hload ltac:(
    repeat constructor; by rewrite (read_file_run _ data)))).
  rewrite (bind_run _ _ _ _ _ Hk). done.
Qed.

Lemma remove_shard_last_shard_witness :
  remove_shard one_shard_one_level
  = (Raise ZeroDivisionError,
     set_mapping (default ∅ (mapfile one_shard_one_level)) one_shard_one_level).
Proof.
  apply (remove_shard_last_shard one_shard_one_level (txt "ab"));
    vm_compute; reflexivity.
Defined.

(** X13: at replication level 0 [remove_replication] never returns: it
    raises [FileNotFoundError], or the [ValueError] of a shard id that is
    not a number, after reloading the mapping; no file, no entry and not
    the persisted map is changed. *)
Theorem remove_replication_level_zero (w : world) :
  let w1 := set_mapping (default ∅ (mapfile w)) w in
  replication_level w = 0 →
  remove_replication w
  = (Raise (match (shard_keys w1).1 with
            | Ok _ => FileNotFoundError
            | Raise e => e
            end), w1).
Proof.
  intros w1 Hlevel. unfold remove_replication. rewrite reload_run. fold w1.
  pose proof (preserves_run shard_keys w1 shard_keys_reads) as Hk.
  destruct (shard_keys w1).1 as [keys|e].
  - rewrite (bind_run _ _ _ _ _ Hk). unfold bind, gets. simpl.
    rewrite Hlevel. done.
  - by rewrite (bind_raise _ _ _ _ _ Hk).
Qed.

Lemma remove_replication_level_zero_witness :
  remove_replication (after (build_shards 3 ten_chars) fresh)
  = (Raise FileNotFoundError, after (build_shards 3 ten_chars) fresh).
Proof.
  apply (remove_replication_level_zero (after (build_shards 3 ten_chars) fresh)).
  vm_compute. reflexivity.
Defined.

(** ** Adding a level of replication *)

Lemma dashed_name (f0 rest : string) : has_dash (f0 +:+ "-" +:+ rest) = true.
Proof. unfold has_dash. rewrite contains_app. simpl. apply orb_true_r. Qed.

Section add_replication_frame.
Context {B : Type} (f : world → B).
Hypothesis f_mapfile : ∀ x w, f (set_mapfile x w) = f w.
Hypothesis f_write : ∀ name d fs w,
  has_dash name = true → data_dir w = Some fs →
  f (set_data_dir (Some (<[name := d]> fs)) w) = f w.
Hypothesis f_update : ∀ key e w,
  has_dash key = true → f (set_mapping (<[key := e]> (mapping w)) w) = f w.

Lemma preserves_write_replica (name : string) (d : text) :
  has_dash name = true → preserves f (write_file name d).
Proof.
  intros Hd w. unfold write_file. destruct (data_dir w) eqn:Hfs; [|done].
  simpl. by apply f_write.
Qed.

Lemma preserves_update_replica (key : string) (e : entry) :
  has_dash key = true → preserves f (mapping_update key e).
Proof. intros Hd w. by apply f_update. Qed.

(** [add_replication] after its first line. *)
Lemma preserves_add_replication_rest :
  preserves f
    (current_level <- gets replication_level ;;
     files <- listdir ;;
     for_each files (λ f,
       if has_dash f then ret tt
       else
         f0 <- lift (first_char f) ;;
         copyfile f (f0 +:+ "-" +:+ py_str current_level +:+ ".txt") ;;
         parent <- gets (λ w, mapping w !! f0) ;;
         match parent with
         | Some e => mapping_update (f0 +:+ "-" +:+ py_str current_level) e
         | None => raise KeyError
         end) ;;
     write_map).
Proof.
  apply preserves_bind; [apply preserves_gets|intros level].
  apply preserves_bind.
  { intros w. unfold listdir. by destruct (data_dir w). }
  intros files. apply preserves_bind; [|intros _ w; apply f_mapfile].
  apply preserves_for_each. intros name. destruct (has_dash name); [done|].
  apply preserves_bind; [apply preserves_lift|intros f0].
  apply preserves_bind.
  { unfold copyfile. apply preserves_bind; [|intros d].
    - intros w. unfold read_bytes. by destruct (_ ≫= _).
    - apply preserves_write_replica, dashed_name. }
  intros _. apply preserves_bind; [apply preserves_gets|intros [e|]]; [|done].
  apply preserves_update_replica, dashed_name.
Qed.
End add_replication_frame.

(** X14: [add_replication] raises the replication level by one also when
    it fails, and never touches a primary: the files and the entries whose
    name has no ['-'] are the same after it, as is the position. *)
Theorem add_replication_keeps_primaries (w : world) :
  let w' := (add_replication w).2 in
  replication_level w' = replication_level w + 1 ∧
  last_char_position w' = last_char_position w ∧
  (∀ name, has_dash name = false →
     (data_dir w' ≫= (.!! name)) = (data_dir w ≫= (.!! name))) ∧
  (∀ key, has_dash key = false → mapping w' !! key = mapping w !! key).
Proof.
  intros w'. subst w'.
  set (w0 := set_replication_level (replication_level w + 1) w).
  assert (∀ {B} (f : world → B),
            (∀ x w, f (set_mapfile x w) = f w) →
            (∀ name d fs w, has_dash name = true → data_dir w = Some fs →
               f (set_data_dir (Some (<[name := d]> fs)) w) = f w) →
            (∀ key e w, has_dash key = true →
               f (set_mapping (<[key := e]> (mapping w)) w) = f w) →
            f (add_replication w).2 = f w0) as Hframe.
  { intros B f Hmf Hwr Hup.
    exact (preserves_add_replication_rest f Hmf Hwr Hup w0). }
  split_and!.
  - by rewrite (Hframe _ replication_level).
  - by rewrite (Hframe _ last_char_position).
  - intros name Hname.
    rewrite (Hframe _ (λ w, data_dir w ≫= (.!! name))); try done.
    intros name' d fs w1 Hd Hfs. simpl. rewrite Hfs. simpl.
    apply lookup_insert_ne. intros ->. congruence.
  - intros key Hkey. rewrite (Hframe _ (λ w, mapping w !! key)); try done.
    intros key' e w1 Hd. simpl. apply lookup_insert_ne. intros ->. congruence.
Qed.

(** ** Queries by key *)

(** X15: [get_shard_data] finds a shard only under the string of its id:
    for a key of the mapping given as a non-empty string it returns the
    entry; for an integer other than 0 it returns the invalid-id answer
    whatever the mapping holds, since the keys are strings.  It never
    changes the world. *)
Theorem get_shard_data_by_key (w : world) :
  (∀ s e, s ≠ EmptyString → mapping w !! s = Some e →
     get_shard_data (PyStr s) w = (Ok (ShardInfo (PyStr s) e), w)) ∧
  (∀ z, z ≠ 0%Z →
     ∃ ids, get_shard_ids w = (Ok ids, w) ∧
            get_shard_data (PyInt z) w = (Ok (InvalidShardID ids), w)) ∧
  (∀ shardnum, (get_shard_data shardnum w).2 = w).
Proof.
  split_and!.
  - intros s e Hs He. unfold get_shard_data. simpl.
    rewrite bool_decide_eq_false_2 by done.
    unfold bind, gets. simpl. by rewrite He.
  - intros z Hz. eexists. split; [done|]. unfold get_shard_data. simpl.
    by rewrite bool_decide_eq_false_2 by done.
  - intros shardnum. unfold get_shard_data.
    destruct (falsy shardnum); [done|]. unfold bind, gets. simpl.
    by destruct (mapping_get (mapping w) shardnum).
Qed.

(** ** Rebalancing onto one more shard *)

Lemma filter_all {A} (P : A → Prop) `{!∀ x, Decision (P x)} (l : list A) :
  Forall P l → filter P l = l.
Proof.
  induction 1 as [|x l Hx _ IH]; [done|]. rewrite filter_cons.
  by rewrite decide_True, IH.
Qed.

Lemma nat_max_upper (l : list nat) (m : nat) :
  nat_max l = Ok m → Forall (λ x, x ≤ m) l.
Proof.
  destruct l as [|x l]; [done|]. intros [= <-].
  assert (∀ l' x', x' ≤ foldl (λ m y, if y <=? m then m else y) x' l' ∧
            Forall (λ y, y ≤ foldl (λ m y, if y <=? m then m else y) x' l') l') as H.
  { induction l' as [|y l' IH]; intros x'; simpl; [by split|].
    destruct (IH (if y <=? x' then x' else y)) as [Hx Hl].
    destruct (Nat.leb_spec y x'); (split; [lia|constructor; [lia|done]]). }
  destruct (H l x). by constructor.
Qed.

Lemma nat_max_seq (n : nat) : nat_max (seq 0 (S n)) = Ok n.
Proof.
  destruct (nat_max (seq 0 (S n))) as [m|e] eqn:Hm; [|done].
  pose proof (py_max_elem _ _ _ Hm) as Hin%elem_of_seq.
  pose proof (nat_max_upper _ _ Hm) as Hup. rewrite Forall_forall in Hup.
  assert (n ≤ m) by (apply Hup, elem_of_seq; lia). f_equal. lia.
Qed.

(** The world after the reload, when the persisted keys are the ids [0]
    to [n - 1]. *)
Lemma ids_of_sorted_keys (w : world) (n : nat) :
  sorted (mapping_keys w) = py_str <$> seq 0 n →
  (∀ key, is_Some (mapping w !! key) ↔ key ∈ py_str <$> seq 0 n) ∧
  get_shard_ids w = (Ok (py_str <$> seq 0 n), w) ∧
  get_replication_ids w = (Ok [], w).
Proof.
  intros Hs.
  assert (∀ key, is_Some (mapping w !! key) ↔ key ∈ py_str <$> seq 0 n) as Hkeys.
  { intros key. by rewrite <- mapping_keys_elem, <- Hs, sorted_perm. }
  split; [done|].
  destruct (ids_of_keys w (py_str <$> seq 0 n)) as [Hids Hreps];
    [apply shard_names_NoDup|done|apply shard_names_no_dash|].
  split; [|done]. rewrite Hids. do 2 f_equal. rewrite <- Hs.
  apply sorted_id, sorted_sorted.
Qed.

(** Writing [m <= 10] pieces over a mapping that has no other key than the
    ids below [m], persisting and reconciling. *)
Lemma rebalance_run (m : nat) (pieces : list text) (w1 : world) :
  1 ≤ m ≤ 10 → length pieces = m → CR ∉ concat pieces →
  (∀ key, is_Some (mapping w1 !! key) → key ∈ py_str <$> seq 0 m) →
  ∃ w',
    (write_shards pieces ;; write_map ;; sync_replication) w1 = (Ok tt, w') ∧
    get_shard_ids w' = (Ok (py_str <$> seq 0 m), w') ∧
    load_data_from_shards w' = (Ok (concat pieces), w') ∧
    mapfile w' = Some (mapping w') ∧
    (∀ name, (∀ i, i < m → name ≠ py_str i +:+ ".txt") →
       (data_dir w' ≫= (.!! name)) = (data_dir w1 ≫= (.!! name))).
Proof.
  intros [Hpos Hten] Hlen Hclean%concat_no_CR Hsub.
  destruct (write_shards_world pieces w1)
    as (w2 & Hrun & Hidx & Hkeys & Hfiles & Hother & Hne & _ & Hmf & Hrl).
  assert (pieces ≠ []) as Hp by (intros ->; simpl in Hlen; lia).
  destruct (Hne Hp) as [[fs Hfs] _].
  set (w3 := set_mapfile (Some (mapping w2)) w2).
  assert (∀ key, is_Some (mapping w3 !! key) ↔ key ∈ py_str <$> seq 0 m) as Hk3.
  { intros key. simpl. split.
    - intros Hsome. destruct (decide (key ∈ py_str <$> seq 0 m)) as [|Hno]; [done|].
      apply Hsub. rewrite <- Hkeys; [done|].
      intros i Hi ->. apply Hno, list_elem_of_fmap. exists i.
      split; [done|]. apply elem_of_seq. lia.
    - intros (i & -> & Hi%elem_of_seq)%list_elem_of_fmap.
      assert (is_Some (pieces !! i)) as [piece Hpiece]
        by (apply lookup_lt_is_Some; lia).
      rewrite (Hidx _ _ Hpiece). by eexists. }
  destruct (ids_of_keys w3 (py_str <$> seq 0 m)) as [Hids Hreps];
    [apply shard_names_NoDup|done|apply shard_names_no_dash|].
  rewrite shard_names_sorted in Hids by done.
  exists w3. split_and!; try done.
  - rewrite (bind_run _ _ _ _ _ Hrun).
    rewrite (bind_run _ _ _ _ _ (write_map_run w2)). fold w3.
    unfold sync_replication. by rewrite (bind_run _ _ _ _ _ Hreps).
  - apply (load_data_run (py_str <$> seq 0 m)); [done|].
    apply Forall2_same_length_lookup_2.
    + by rewrite length_fmap, length_seq.
    + intros i name piece Hname Hpiece.
      rewrite list_lookup_fmap in Hname.
      destruct (seq 0 m !! i) as [j|] eqn:Hj; [|done].
      apply lookup_seq in Hj as [-> _]. simpl in Hname. simplify_eq.
      rewrite (read_file_run _ piece).
      * simpl. f_equal. apply universal_newlines_clean.
        rewrite Forall_forall in Hclean. by eapply Hclean, list_elem_of_lookup_2.
      * simpl. rewrite Hfs. simpl. specialize (Hfiles _ _ Hpiece).
        by rewrite Hfs in Hfiles.
  - intros name Hname. simpl. rewrite Hfs. simpl.
    specialize (Hother name). rewrite Hfs in Hother. simpl in Hother.
    rewrite Hother by (intros i Hi; apply Hname; lia).
    by destruct (data_dir w1).
Qed.

(** X16: on a setup of [n <= 9] shards [0] to [n - 1] without replicas,
    [add_shard] succeeds: afterwards the ids are [0] to [n], the shards
    read back to the same text as before, the mapping is persisted and no
    other file is touched. *)
Theorem add_shard_rebalances (n : nat) (contents : list text) (w : world) :
  let w1 := set_mapping (default ∅ (mapfile w)) w in
  1 ≤ n ≤ 9 →
  sorted (mapping_keys w1) = py_str <$> seq 0 n →
  Forall2 (λ name c, (read_file (name +:+ ".txt") w).1 = Ok c)
    (py_str <$> seq 0 n) contents →
  ∃ w',
    add_shard w = (Ok tt, w') ∧
    get_shard_ids w' = (Ok (py_str <$> seq 0 (n + 1)), w') ∧
    load_data_from_shards w' = (Ok (concat contents), w') ∧
    mapfile w' = Some (mapping w') ∧
    (∀ name, (∀ i, i < n + 1 → name ≠ py_str i +:+ ".txt") →
       (data_dir w' ≫= (.!! name)) = (data_dir w ≫= (.!! name))).
Proof.
  intros w1 [Hpos Hnine] Hsorted Hfiles.
  destruct (ids_of_sorted_keys w1 n Hsorted) as (Hkeys & Hids & _).
  assert (Forall2 (λ name c, (read_file (name +:+ ".txt") w1).1 = Ok c)
            (py_str <$> seq 0 n) contents) as Hfiles1.
  { eapply Forall2_impl; [exact Hfiles|]. intros name c H.
    unfold w1. by rewrite read_file_set_mapping. }
  pose proof (load_data_run _ contents w1 Hids Hfiles1) as Hload.
  pose proof (contents_no_CR _ _ _ Hfiles) as Hclean.
  pose proof (shard_keys_run (seq 0 n) w1 Hids) as Hk.
  destruct n as [|n]; [lia|].
  destruct (generate_sharded_data_pieces (concat contents) (S n + 1))
    as (pieces & Hgen & Hlen & Hcat); [lia|].
  destruct (rebalance_run (S n + 1) pieces w1) as (w' & Hrun & Hids' & Hload' & Hmf & Hoth);
    [lia|done|by rewrite Hcat| |].
  { intros key (i & -> & Hi%elem_of_seq)%Hkeys%list_elem_of_fmap.
    apply list_elem_of_fmap. exists i. split; [done|]. apply elem_of_seq. lia. }
  exists w'. split_and!; try done; [|by rewrite <- Hcat].
  unfold add_shard. rewrite reload_run. fold w1.
  rewrite (bind_run _ _ _ _ _ Hload), (bind_run _ _ _ _ _ Hk).
  assert (lift (nat_max (seq 0 (S n))) w1 = (Ok n, w1)) as Hmax
    by (unfold lift; by rewrite nat_max_seq).
  rewrite (bind_run _ _ _ _ _ Hmax).
  replace (n + 2) with (S n + 1) by lia.
  assert (lift (_generate_sharded_data (Z.of_nat (S n + 1)) (concat contents)) w1
          = (Ok pieces, w1)) as Hg by (unfold lift; by rewrite Hgen).
  by rewrite (bind_run _ _ _ _ _ Hg).
Qed.

Lemma add_shard_rebalances_witness :
  ∃ w',
    add_shard (after (build_shards 3 ten_chars) fresh) = (Ok tt, w') ∧
    get_shard_ids w' = (Ok (py_str <$> seq 0 (3 + 1)), w') ∧
    load_data_from_shards w'
    = (Ok (concat [txt "abc"; txt "def"; txt "ghij"]), w') ∧
    mapfile w' = Some (mapping w') ∧
    (∀ name, (∀ i, i < 3 + 1 → name ≠ py_str i +:+ ".txt") →
       (data_dir w' ≫= (.!! name))
       = (data_dir (after (build_shards 3 ten_chars) fresh) ≫= (.!! name))).
Proof.
  apply (add_shard_rebalances 3 [txt "abc"; txt "def"; txt "ghij"]
           (after (build_shards 3 ten_chars) fresh)).
  - lia.
  - vm_compute. reflexivity.
  - vm_compute. repeat constructor.
Defined.

(** ** Removing the highest shard *)

Lemma files_elem (fs : gmap string text) (name : string) :
  name ∈ (map_to_list fs).*1 ↔ is_Some (fs !! name).
Proof.
  rewrite list_elem_of_fmap. split.
  - intros ([k d] & -> & Hin%elem_of_map_to_list). by eexists.
  - intros [d Hd]. exists (name, d). by rewrite elem_of_map_to_list.
Qed.

(** A loop that removes the files a test selects, over names that are on
    disk. *)
Lemma remove_loop (P : string → bool) (body : string → M unit)
    (l : list string) (fs : gmap string text) (w : world) :
  (∀ file, body file = if P file then remove file else ret tt) →
  data_dir w = Some fs → NoDup l → (∀ x, x ∈ l → is_Some (fs !! x)) →
  ∃ fs',
    for_each l body w = (Ok tt, set_data_dir (Some fs') w) ∧
    ∀ name, fs' !! name
            = if decide (name ∈ l ∧ P name = true) then None else fs !! name.
Proof.
  intros Hbody. revert fs w.
  induction l as [|x l IH]; intros fs w Hfs Hnd Hin.
  - exists fs. split.
    + simpl. unfold ret. f_equal. destruct w; simpl in *. by rewrite Hfs.
    + intros name. rewrite decide_False; [done|]. by intros [?%elem_of_nil _].
  - apply NoDup_cons in Hnd as [Hx Hnd]. simpl. rewrite Hbody.
    destruct (P x) eqn:HP.
    + assert (remove x w = (Ok tt, set_data_dir (Some (delete x fs)) w)) as Hrm.
      { unfold remove. rewrite Hfs. rewrite bool_decide_eq_true_2; [done|].
        apply Hin. left. }
      destruct (IH (delete x fs) (set_data_dir (Some (delete x fs)) w))
        as (fs' & Hrun & Hlook); [done|done| |].
      { intros y Hy. rewrite lookup_delete_ne by (intros ->; done).
        apply Hin. by right. }
      exists fs'. split; [by rewrite (bind_run _ _ _ _ _ Hrm), Hrun|].
      intros name. rewrite Hlook.
      destruct (decide (name = x)) as [->|Hne].
      * rewrite lookup_delete_eq. rewrite (decide_True (P:=x ∈ x :: l ∧ _));
          [by case_decide|]. split; [left|done].
      * rewrite lookup_delete_ne by done.
        repeat case_decide; try done; exfalso.
        -- destruct H as [Hl ?]. apply H0. split; [by right|done].
        -- destruct H0 as [[?|?]%elem_of_cons ?]; [done|]. by apply H.
    + destruct (IH fs w) as (fs' & Hrun & Hlook); [done|done| |].
      { intros y Hy. apply Hin. by right. }
      exists fs'. split; [by rewrite (bind_run _ _ _ _ _ (eq_refl : ret tt w = _))|].
      intros name. rewrite Hlook.
      repeat case_decide; try done; exfalso.
      * destruct H as [Hl ?]. apply H0. split; [by right|done].
      * destruct H0 as [[->|?]%elem_of_cons ?]; [congruence|]. by apply H.
Qed.

(** The loop of [remove_shard] over the keys: the entry of the shard is
    popped. *)
Lemma pop_loop (k0 : string) (l : list string) (w : world) :
  NoDup l → (∀ x, x ∈ l → is_Some (mapping w !! x)) →
  for_each l (λ key, if decide (key = k0) then mapping_pop key else ret tt) w
  = (Ok tt,
     set_mapping (if decide (k0 ∈ l) then delete k0 (mapping w) else mapping w) w).
Proof.
  revert w. induction l as [|x l IH]; intros w Hnd Hin.
  - simpl. unfold ret. f_equal. by destruct w.
  - apply NoDup_cons in Hnd as [Hx Hnd]. simpl.
    destruct (decide (x = k0)) as [->|Hne].
    + destruct (Hin k0) as [e He]; [left|].
      assert (mapping_pop k0 w = (Ok tt, set_mapping (delete k0 (mapping w)) w)) as Hp
        by (unfold mapping_pop; by rewrite He).
      rewrite (bind_run _ _ _ _ _ Hp), IH; [|done|].
      * simpl. rewrite (decide_False (P:=k0 ∈ l)) by done.
        rewrite decide_True by left. done.
      * intros y Hy. simpl. rewrite lookup_delete_ne by (intros ->; done).
        apply Hin. by right.
    + rewrite (bind_run _ _ _ _ _ (eq_refl : ret tt w = _)), IH; [|done|].
      * do 2 f_equal. repeat case_decide; try done; exfalso.
        -- apply H0. by right.
        -- apply elem_of_cons in H0 as [->|?]; [done|]. by apply H.
      * intros y Hy. apply Hin. by right.
Qed.

Lemma removes_file_shard (m i : nat) :
  removes_file m (py_str i +:+ ".txt") = bool_decide (i = m).
Proof.
  unfold removes_file. rewrite shard_file_no_dash.
  rewrite split_head_app by (apply py_str_contains; by repeat constructor).
  apply bool_decide_ext. split; [apply py_str_inj|by intros ->].
Qed.

(** X17: on a setup of [2 <= n <= 10] shards [0] to [n - 1] without
    replicas, [remove_shard] succeeds: afterwards the ids are [0] to
    [n - 2], the shards read back to the same text as before, the mapping
    is persisted, the files of shard [n - 1] are gone and no other file is
    touched. *)
Theorem remove_shard_rebalances (n : nat) (contents : list text) (w : world) :
  let w1 := set_mapping (default ∅ (mapfile w)) w in
  2 ≤ n ≤ 10 →
  sorted (mapping_keys w1) = py_str <$> seq 0 n →
  Forall2 (λ name c, (read_file (name +:+ ".txt") w).1 = Ok c)
    (py_str <$> seq 0 n) contents →
  ∃ w',
    remove_shard w = (Ok tt, w') ∧
    get_shard_ids w' = (Ok (py_str <$> seq 0 (n - 1)), w') ∧
    load_data_from_shards w' = (Ok (concat contents), w') ∧
    mapfile w' = Some (mapping w') ∧
    (∀ name, removes_file (n - 1) name = true →
       (data_dir w' ≫= (.!! name)) = None) ∧
    (∀ name, removes_file (n - 1) name = false →
       (∀ i, i < n - 1 → name ≠ py_str i +:+ ".txt") →
       (data_dir w' ≫= (.!! name)) = (data_dir w ≫= (.!! name))).
Proof.
  intros w1 [Htwo Hten] Hsorted Hfiles.
  destruct (ids_of_sorted_keys w1 n Hsorted) as (Hkeys & Hids & _).
  assert (Forall2 (λ name c, (read_file (name +:+ ".txt") w1).1 = Ok c)
            (py_str <$> seq 0 n) contents) as Hfiles1.
  { eapply Forall2_impl; [exact Hfiles|]. intros name c H.
    unfold w1. by rewrite read_file_set_mapping. }
  pose proof (load_data_run _ contents w1 Hids Hfiles1) as Hload.
  pose proof (contents_no_CR _ _ _ Hfiles) as Hclean.
  pose proof (shard_keys_run (seq 0 n) w1 Hids) as Hk.
  destruct n as [|[|m]]; [lia|lia|]. replace (S (S m) - 1) with (S m) by lia.
  destruct (generate_sharded_data_pieces (concat contents) (S m))
    as (pieces & Hgen & Hlen & Hcat); [lia|].
  assert (∃ fs, data_dir w = Some fs) as [fs Hfs].
  { inversion Hfiles as [|? ? ? ? Hhd]. unfold read_file, bind, read_bytes in Hhd.
    destruct (data_dir w); [by eexists|done]. }
  assert (listdir w1 = (Ok (map_to_list fs).*1, w1)) as Hls
    by (unfold listdir; simpl; by rewrite Hfs).
  destruct (remove_loop (removes_file (S m))
              (λ file,
                 if has_dash file then
                   if decide (split_head "-"%char file = py_str (S m))
                   then remove file else ret tt
                 else
                   if decide (split_head "."%char file = py_str (S m))
                   then remove file else ret tt)
              (map_to_list fs).*1 fs w1) as (fs' & Hrm & Hlook).
  { intros file. unfold removes_file.
    destruct (has_dash file); case_decide;
      by rewrite ?bool_decide_eq_true_2, ?bool_decide_eq_false_2 by done. }
  { done. }
  { apply NoDup_fst_map_to_list. }
  { intros x. by rewrite files_elem. }
  set (w2 := set_data_dir (Some fs') w1) in *.
  assert (gets mapping_keys w2 = (Ok (mapping_keys w1), w2)) as Hmk by done.
  pose proof (pop_loop (py_str (S m)) (mapping_keys w1) w2
                ltac:(apply NoDup_fst_map_to_list)
                ltac:(intros x; by rewrite mapping_keys_elem)) as Hpop.
  rewrite decide_True in Hpop.
  2:{ apply mapping_keys_elem, Hkeys, list_elem_of_fmap. exists (S m).
      split; [done|]. apply elem_of_seq. lia. }
  set (w3 := set_mapping _ w2) in Hpop.
  destruct (rebalance_run (S m) pieces w3)
    as (w' & Hrun & Hids' & Hload' & Hmf & Hoth); [lia|done|by rewrite Hcat| |].
  { intros key. subst w3. cbn [mapping set_mapping].
    destruct (decide (key = py_str (S m))) as [->|Hne].
    - rewrite lookup_delete_eq. by intros [].
    - rewrite lookup_delete_ne by done.
      intros (i & -> & Hi%elem_of_seq)%Hkeys%list_elem_of_fmap.
      apply list_elem_of_fmap. exists i. split; [done|]. apply elem_of_seq.
      assert (i ≠ S m) by (intros ->; done). lia. }
  exists w'. split_and!; try done.
  - unfold remove_shard. rewrite reload_run. fold w1.
    rewrite (bind_run _ _ _ _ _ Hload), (bind_run _ _ _ _ _ Hk).
    assert (lift (nat_max (seq 0 (S (S m)))) w1 = (Ok (S m), w1)) as Hmax
      by (unfold lift; by rewrite nat_max_seq).
    rewrite (bind_run _ _ _ _ _ Hmax).
    assert (lift (_generate_sharded_data (Z.of_nat (S m)) (concat contents)) w1
            = (Ok pieces, w1)) as Hg by (unfold lift; by rewrite Hgen).
    rewrite (bind_run _ _ _ _ _ Hg), (bind_run _ _ _ _ _ Hls).
    rewrite (bind_run _ _ _ _ _ Hrm), (bind_run _ _ _ _ _ Hmk).
    rewrite (bind_run _ _ _ _ _ Hpop). exact Hrun.
  - by rewrite <- Hcat.
  - intros name Hname. rewrite Hoth.
    + simpl. rewrite Hlook. rewrite Hname. case_decide as Hd; [done|].
      destruct (fs !! name) eqn:Hn; [|done]. exfalso. apply Hd.
      split; [|done]. apply files_elem. by eexists.
    + intros i Hi ->. rewrite removes_file_shard in Hname.
      apply bool_decide_eq_true in Hname. lia.
  - intros name Hname Hnew. rewrite Hoth by done. simpl.
    rewrite Hlook, Hfs. simpl. rewrite decide_False; [done|].
    intros [_ ?]. congruence.
Qed.

Lemma remove_shard_rebalances_witness :
  ∃ w',
    remove_shard (after (build_shards 3 ten_chars) fresh) = (Ok tt, w') ∧
    get_shard_ids w' = (Ok (py_str <$> seq 0 (3 - 1)), w') ∧
    load_data_from_shards w'
    = (Ok (concat [txt "abc"; txt "def"; txt "ghij"]), w') ∧
    mapfile w' = Some (mapping w') ∧
    (∀ name, removes_file (3 - 1) name = true →
       (data_dir w' ≫= (.!! name)) = None) ∧
    (∀ name, removes_file (3 - 1) name = false →
       (∀ i, i < 3 - 1 → name ≠ py_str i +:+ ".txt") →
       (data_dir w' ≫= (.!! name))
       = (data_dir (after (build_shards 3 ten_chars) fresh) ≫= (.!! name))).
Proof.
  apply (remove_shard_rebalances 3 [txt "abc"; txt "def"; txt "ghij"]
           (after (build_shards 3 ten_chars) fresh)).
  - lia.
  - vm_compute. reflexivity.
  - vm_compute. repeat constructor.
Defined.

(** ** What [add_replication] copies *)

Lemma first_char_app (s f0 rest : string) :
  first_char s = Ok f0 → ∃ c, f0 = String c EmptyString ∧ f0 +:+ rest = String c rest.
Proof. destruct s as [|c s]; [done|]. intros [= <-]. by exists c. Qed.

Lemma first_char_no_dash (s f0 : string) :
  first_char s = Ok f0 → has_dash s = false → has_dash f0 = false.
Proof.
  destruct s as [|c s]; [done|]. intros [= <-]. unfold has_dash. simpl.
  by destruct (Ascii.eqb c "-").
Qed.

(** The body of the loop of [add_replication] on a primary. *)
Lemma add_replication_step (level : nat) (f f0 : string) (w w1 : world) :
  has_dash f = false → first_char f = Ok f0 →
  (copyfile f (f0 +:+ "-" +:+ py_str level +:+ ".txt") ;;
   parent <- gets (λ w, mapping w !! f0) ;;
   match parent with
   | Some e => mapping_update (f0 +:+ "-" +:+ py_str level) e
   | None => raise KeyError
   end) w = (Ok tt, w1) →
  ∃ fs d e,
    data_dir w = Some fs ∧ fs !! f = Some d ∧ mapping w !! f0 = Some e ∧
    w1 = set_mapping (<[f0 +:+ "-" +:+ py_str level := e]> (mapping w))
           (set_data_dir
              (Some (<[f0 +:+ "-" +:+ py_str level +:+ ".txt" := d]> fs)) w).
Proof.
  intros Hf Hf0 Hrun. apply bind_Ok in Hrun as ([] & w2 & Hcopy & Hrun).
  unfold copyfile in Hcopy. apply bind_Ok in Hcopy as (d & w3 & Hread & Hwrite).
  unfold read_bytes in Hread. destruct (data_dir w) as [fs|] eqn:Hfs; [|done].
  simpl in Hread. destruct (fs !! f) as [d'|] eqn:Hd; [|done].
  injection Hread as <- <-.
  unfold write_file in Hwrite. rewrite Hfs in Hwrite. injection Hwrite as <-.
  apply bind_Ok in Hrun as (parent & w4 & Hget & Hrun).
  unfold gets in Hget. injection Hget as <- <-. cbn [mapping set_data_dir] in Hrun.
  destruct (mapping w !! f0) as [e|] eqn:He; [|done].
  unfold mapping_update, modify in Hrun. injection Hrun as <-.
  exists fs, d', e. by split_and!.
Qed.

Lemma replica_file_inj (f g f0 g0 : string) (level : nat) :
  first_char f = Ok f0 → first_char g = Ok g0 →
  replica_file f0 level = replica_file g0 level → f0 = g0.
Proof.
  intros (c & -> & _)%(first_char_app _ _ EmptyString) (c' & -> & _)%(first_char_app _ _ EmptyString).
  unfold replica_file. simpl. by intros [= ->].
Qed.

Lemma replica_key_inj (f g f0 g0 : string) (level : nat) :
  first_char f = Ok f0 → first_char g = Ok g0 →
  replica_key f0 level = replica_key g0 level → f0 = g0.
Proof.
  intros (c & -> & _)%(first_char_app _ _ EmptyString) (c' & -> & _)%(first_char_app _ _ EmptyString).
  unfold replica_key. simpl. by intros [= ->].
Qed.

Lemma add_replication_loop (level : nat) (l : list string) (w w' : world) :
  for_each l (λ f,
    if has_dash f then ret tt
    else
      f0 <- lift (first_char f) ;;
      copyfile f (f0 +:+ "-" +:+ py_str level +:+ ".txt") ;;
      parent <- gets (λ w, mapping w !! f0) ;;
      match parent with
      | Some e => mapping_update (f0 +:+ "-" +:+ py_str level) e
      | None => raise KeyError
      end) w = (Ok tt, w') →
  (∀ name,
     (∀ f f0, f ∈ l → has_dash f = false → first_char f = Ok f0 →
        name ≠ replica_file f0 level) →
     (data_dir w' ≫= (.!! name)) = (data_dir w ≫= (.!! name))) ∧
  (∀ key,
     (∀ f f0, f ∈ l → has_dash f = false → first_char f = Ok f0 →
        key ≠ replica_key f0 level) →
     mapping w' !! key = mapping w !! key) ∧
  (∀ f, f ∈ l → has_dash f = false →
     ∃ f0 f',
       first_char f = Ok f0 ∧ f' ∈ l ∧ has_dash f' = false ∧
       first_char f' = Ok f0 ∧
       is_Some (data_dir w ≫= (.!! f')) ∧
       (data_dir w' ≫= (.!! replica_file f0 level)) = (data_dir w ≫= (.!! f')) ∧
       is_Some (mapping w !! f0) ∧
       mapping w' !! replica_key f0 level = mapping w !! f0).
Proof.
  revert w. induction l as [|x l IH]; intros w Hrun.
  { injection Hrun as <-. split_and!; try done. by intros f ?%elem_of_nil. }
  cbn [for_each] in Hrun. apply bind_Ok in Hrun as ([] & w1 & Hx & Hl).
  destruct (IH _ Hl) as (Hfiles & Hkeys & Hcopies). clear IH.
  destruct (has_dash x) eqn:Hdx.
  { injection Hx as <-. split_and!.
    - intros name Hname. apply Hfiles. intros f f0 Hf. apply Hname. by right.
    - intros key Hkey. apply Hkeys. intros f f0 Hf. apply Hkey. by right.
    - intros f [->|Hf]%elem_of_cons Hd; [congruence|].
      destruct (Hcopies f Hf Hd)
        as (f0 & f' & Hf0 & Hf' & Hdf' & Hf0' & Hs & Hc & Hm & Hk).
      exists f0, f'. split_and!; try done. by right. }
  apply bind_Ok in Hx as (x0 & w2 & Hx0 & Hx). unfold lift in Hx0.
  injection Hx0 as Hx0 <-.
  destruct (add_replication_step level x x0 w w1 Hdx Hx0 Hx)
    as (fs & d & e & Hfs & Hd & He & ->).
  assert (∀ name, has_dash name = false →
            (<[x0 +:+ "-" +:+ py_str level +:+ ".txt" := d]> fs) !! name = fs !! name)
    as Hsame_file.
  { intros name Hn. apply lookup_insert_ne. intros <-.
    by rewrite dashed_name in Hn. }
  assert (∀ key, has_dash key = false →
            (<[x0 +:+ "-" +:+ py_str level := e]> (mapping w)) !! key = mapping w !! key)
    as Hsame_key.
  { intros key Hn. apply lookup_insert_ne. intros <-.
    by rewrite dashed_name in Hn. }
  cbn [data_dir mapping set_mapping set_data_dir] in Hfiles, Hkeys, Hcopies.
  rewrite Hfs. cbn [mbind option_bind] in *. split_and!.
  - intros name Hname. rewrite Hfiles.
    + apply lookup_insert_ne. intros <-. by apply (Hname x x0); [left|..].
    + intros f f0 Hf. apply Hname. by right.
  - intros key Hkey. rewrite Hkeys.
    + apply lookup_insert_ne. intros <-. by apply (Hkey x x0); [left|..].
    + intros f f0 Hf. apply Hkey. by right.
  - intros f Hin Hdf.
    assert (∀ g, g ∈ l → has_dash g = false →
              ∃ f0 f', first_char g = Ok f0 ∧ f' ∈ x :: l ∧ has_dash f' = false ∧
                first_char f' = Ok f0 ∧ is_Some (fs !! f') ∧
                data_dir w' ≫= (.!! replica_file f0 level) = fs !! f' ∧
                is_Some (mapping w !! f0) ∧
                mapping w' !! replica_key f0 level = mapping w !! f0) as Hrest.
    { intros g Hg Hdg.
      destruct (Hcopies g Hg Hdg) as (f0 & f' & Hf0 & Hf' & Hdf' & Hf0' & Hs & Hc & Hm & Hk).
      pose proof (first_char_no_dash _ _ Hf0 Hdg) as Hd0.
      rewrite Hsame_file in Hs, Hc by done. rewrite Hsame_key in Hm, Hk by done.
      exists f0, f'. split_and!; try done. by right. }
    apply elem_of_cons in Hin as [->|Hin]; [|by apply Hrest].
    destruct (decide (Exists (λ g, has_dash g = false ∧ first_char g = Ok x0) l))
      as [(g & Hg & Hdg & Hg0)%Exists_exists|Hno].
    + destruct (Hrest g Hg Hdg) as (f0 & f' & Hf0 & Hrest').
      rewrite Hg0 in Hf0. injection Hf0 as <-. by exists x0, f'.
    + rewrite Exists_exists in Hno.
      exists x0, x. split_and!.
      * done.
      * left.
      * done.
      * done.
      * by eexists.
      * rewrite Hfiles; [by rewrite lookup_insert_eq|].
        intros g g0 Hg Hdg Hg0 Heq. apply Hno. exists g. split; [done|].
        split; [done|]. by rewrite (replica_file_inj x g x0 g0 level).
      * by eexists.
      * rewrite Hkeys; [by rewrite lookup_insert_eq|].
        intros g g0 Hg Hdg Hg0 Heq. apply Hno. exists g. split; [done|].
        split; [done|]. by rewrite (replica_key_inj x g x0 g0 level).
Qed.

(** X18: after an [add_replication] that returns, every primary file
    [f] on disk has the replica file named after the first character of
    [f] at the new level; that file is a copy of a primary file whose name
    begins with that character ([f] itself when no other primary begins
    with it), and its entry is the entry of the key made of that
    character.  No other file is written. *)
Theorem add_replication_copies (w w' : world) (fs : gmap string text) :
  add_replication w = (Ok tt, w') → data_dir w = Some fs →
  let level := replication_level w + 1 in
  (∀ f, has_dash f = false → is_Some (fs !! f) →
     ∃ f0 f' d e,
       first_char f = Ok f0 ∧
       has_dash f' = false ∧ first_char f' = Ok f0 ∧ fs !! f' = Some d ∧
       ((∀ g, has_dash g = false → is_Some (fs !! g) →
           first_char g = Ok f0 → g = f) → f' = f) ∧
       (data_dir w' ≫= (.!! replica_file f0 level)) = Some d ∧
       mapping w !! f0 = Some e ∧
       mapping w' !! replica_key f0 level = Some e) ∧
  (∀ name,
     (∀ f f0, has_dash f = false → is_Some (fs !! f) → first_char f = Ok f0 →
        name ≠ replica_file f0 level) →
     (data_dir w' ≫= (.!! name)) = fs !! name).
Proof.
  intros Hrun Hfs level. unfold add_replication in Hrun.
  apply bind_Ok in Hrun as ([] & w0 & Hmod & Hrun).
  unfold modify in Hmod. injection Hmod as <-.
  apply bind_Ok in Hrun as (lvl & w1 & Hlvl & Hrun).
  unfold gets in Hlvl. injection Hlvl as <- <-. cbn [replication_level set_replication_level] in Hrun.
  fold level in Hrun.
  apply bind_Ok in Hrun as (files & w1 & Hls & Hrun).
  unfold listdir in Hls. cbn [data_dir set_replication_level] in Hls.
  rewrite Hfs in Hls. injection Hls as <- <-.
  apply bind_Ok in Hrun as ([] & w2 & Hloop & Hmap).
  unfold write_map, modify in Hmap. injection Hmap as <-.
  destruct (add_replication_loop _ _ _ _ Hloop) as (Hfiles & Hkeys & Hcopies).
  cbn [data_dir mapping set_mapfile set_replication_level] in *.
  rewrite Hfs in *. cbn [mbind option_bind] in *. split.
  - intros f Hdf Hf. apply files_elem in Hf.
    destruct (Hcopies f Hf Hdf)
      as (f0 & f' & Hf0 & Hf' & Hdf' & Hf0' & [d Hd] & Hc & [e He] & Hk).
    exists f0, f', d, e. split_and!; try done.
    + intros Huniq. apply Huniq; [done| |done]. by eexists.
    + by rewrite Hc.
    + by rewrite Hk.
  - intros name Hname. apply Hfiles. intros f f0 Hf%files_elem Hdf Hf0.
    by apply (Hname f).
Qed.

Lemma add_replication_copies_witness :
  let w := after (build_shards 2 (txt "abcd")) fresh in
  let w' := after add_replication w in
  let fs : gmap string text :=
    list_to_map [("0.txt", txt "ab"); ("1.txt", txt "cd")] in
  (∀ f, has_dash f = false → is_Some (fs !! f) →
     ∃ f0 f' d e,
       first_char f = Ok f0 ∧
       has_dash f' = false ∧ first_char f' = Ok f0 ∧ fs !! f' = Some d ∧
       ((∀ g, has_dash g = false → is_Some (fs !! g) →
           first_char g = Ok f0 → g = f) → f' = f) ∧
       (data_dir w' ≫= (.!! replica_file f0 (replication_level w + 1))) = Some d ∧
       mapping w !! f0 = Some e ∧
       mapping w' !! replica_key f0 (replication_level w + 1) = Some e) ∧
  (∀ name,
     (∀ f f0, has_dash f = false → is_Some (fs !! f) → first_char f = Ok f0 →
        name ≠ replica_file f0 (replication_level w + 1)) →
     (data_dir w' ≫= (.!! name)) = fs !! name).
Proof.
  intros w w' fs. apply (add_replication_copies w w' fs); vm_compute; reflexivity.
Defined.

(** ** What the reconciliation repairs *)

Lemma preserves_for_each_Forall {A B} (f : world → B) (P : A → Prop)
    (l : list A) (body : A → M unit) :
  Forall P l → (∀ x, P x → preserves f (body x)) → preserves f (for_each l body).
Proof.
  intros Hl Hb. induction Hl as [|x l Hx _ IH]; [done|].
  simpl. apply preserves_bind; auto.
Qed.

Lemma shard_ids_no_dash (w : world) (ids : list string) :
  get_shard_ids w = (Ok ids, w) → Forall (λ id, has_dash id = false) ids.
Proof.
  intros [= <-]. apply Forall_forall. intros id.
  rewrite sorted_perm, list_elem_of_filter. intros [Hd _].
  by destruct (has_dash id).
Qed.

(** [verify_primaries] writes primaries only. *)
Lemma verify_primaries_keeps_replicas (r : string) :
  has_dash r = true →
  preserves (λ w, data_dir w ≫= (.!! r)) verify_primaries.
Proof.
  intros Hr w. unfold verify_primaries.
  set (ids := sorted (filter (λ key, ¬ has_dash key) (mapping_keys w))).
  assert (get_shard_ids w = (Ok ids, w)) as Hids by done.
  rewrite (bind_run _ _ _ _ _ Hids).
  apply shard_ids_no_dash in Hids. clearbody ids. revert w.
  change (preserves (λ w, data_dir w ≫= (.!! r))
    (names <- listdir ;;
     primary_ids <- map_M (λ filename, lift (first_char filename))
                      (filter (λ filename, ¬ has_dash filename) names) ;;
     for_each ids (λ id,
       if decide (id ∈ primary_ids) then ret tt
       else
         level <- find_highest_replication_level ;;
         copyfile (id +:+ "-" +:+ py_str level +:+ ".txt") (id +:+ ".txt")))).
  apply preserves_bind; [by apply preserves_listdir|intros names].
  apply preserves_bind;
    [apply preserves_map_M; intros ?; apply preserves_lift|intros primary_ids].
  apply (preserves_for_each_Forall _ _ _ _ Hids). intros id Hid.
  case_decide; [done|].
  apply preserves_bind; [apply preserves_find_highest_replication_level|intros level].
  unfold copyfile. apply preserves_bind; [|intros d].
  { intros w. unfold read_bytes. by case_match. }
  intros w. unfold write_file. cbv beta.
  destruct (data_dir w) as [fs|] eqn:Hfs; simpl; rewrite ?Hfs; [|done]. simpl.
  apply lookup_insert_ne. intros <-.
  unfold has_dash in Hr, Hid. rewrite contains_app, Hid in Hr. simpl in Hr. done.
Qed.

(** The body of the loop of [verify_replications]. *)
Lemma verify_replication_step (r : string) (w w1 : world) :
  (r0 <- lift (first_char r) ;;
   let file_to_match := r0 +:+ ".txt" in
   primary_size <- getsize file_to_match ;;
   replication_size <- getsize r ;;
   if decide (primary_size = replication_size) then ret tt
   else
     ex <- path_exists r ;;
     (if ex : bool then remove r else ret tt) ;;
     copyfile file_to_match r) w = (Ok tt, w1) →
  ∃ fs r0 p d0,
    data_dir w = Some fs ∧ first_char r = Ok r0 ∧
    fs !! (r0 +:+ ".txt") = Some p ∧ fs !! r = Some d0 ∧
    w1 = if decide (length p = length d0) then w
         else set_data_dir (Some (<[r := p]> fs)) w.
Proof.
  intros Hrun. apply bind_Ok in Hrun as (r0 & w2 & Hr0 & Hrun).
  unfold lift in Hr0. injection Hr0 as Hr0 <-. cbv zeta in Hrun.
  apply bind_Ok in Hrun as (psize & w2 & Hp & Hrun).
  unfold getsize in Hp. apply bind_Ok in Hp as (p & w3 & Hp & Hps).
  unfold read_bytes in Hp. destruct (data_dir w) as [fs|] eqn:Hfs; [|done].
  simpl in Hp. destruct (fs !! (r0 +:+ ".txt")) as [p'|] eqn:Hpf; [|done].
  injection Hp as <- <-. injection Hps as <- <-.
  apply bind_Ok in Hrun as (rsize & w2 & Hr & Hrun).
  unfold getsize in Hr. apply bind_Ok in Hr as (d0 & w3 & Hr & Hrs).
  unfold read_bytes in Hr. rewrite Hfs in Hr.
  simpl in Hr. destruct (fs !! r) as [d0'|] eqn:Hrf; [|done].
  injection Hr as <- <-. injection Hrs as <- <-.
  exists fs, r0, p', d0'. split_and!; try done.
  case_decide as Hlen; [by injection Hrun as <-|].
  assert (r0 +:+ ".txt" ≠ r) as Hne by (intros Heq; rewrite Heq in Hpf; congruence).
  apply bind_Ok in Hrun as (ex & w2 & Hex & Hrun).
  unfold path_exists, gets in Hex. rewrite Hfs, Hrf in Hex.
  rewrite bool_decide_eq_true_2 in Hex by by eexists. injection Hex as <- <-.
  apply bind_Ok in Hrun as ([] & w2 & Hrm & Hrun).
  unfold remove in Hrm. rewrite Hfs, Hrf in Hrm.
  rewrite bool_decide_eq_true_2 in Hrm by by eexists. injection Hrm as <-.
  unfold copyfile, bind, read_bytes, write_file in Hrun. simpl in Hrun.
  rewrite lookup_delete_ne, Hpf in Hrun by done. simpl in Hrun.
  injection Hrun as <-. rewrite insert_delete_eq. by destruct w.
Qed.

Lemma verify_replications_loop (l : list string) (fs : gmap string text)
    (w w' : world) :
  for_each l (λ r,
    r0 <- lift (first_char r) ;;
    let file_to_match := r0 +:+ ".txt" in
    primary_size <- getsize file_to_match ;;
    replication_size <- getsize r ;;
    if decide (primary_size = replication_size) then ret tt
    else
      ex <- path_exists r ;;
      (if ex : bool then remove r else ret tt) ;;
      copyfile file_to_match r) w = (Ok tt, w') →
  data_dir w = Some fs → NoDup l →
  ∃ fs',
    data_dir w' = Some fs' ∧
    (∀ name, name ∉ l → fs' !! name = fs !! name) ∧
    (∀ r, r ∈ l →
       ∃ r0, first_char r = Ok r0 ∧
         (r0 +:+ ".txt" ∉ l →
          ∃ p d0, fs !! (r0 +:+ ".txt") = Some p ∧ fs !! r = Some d0 ∧
            fs' !! r = Some (if decide (length p = length d0) then d0 else p))).
Proof.
  revert fs w. induction l as [|x l IH]; intros fs w Hrun Hfs Hnd.
  { injection Hrun as <-. exists fs. split_and!; try done. by intros r ?%elem_of_nil. }
  apply NoDup_cons in Hnd as [Hx Hnd].
  cbn [for_each] in Hrun. apply bind_Ok in Hrun as ([] & w1 & Hstep & Hl).
  apply verify_replication_step in Hstep
    as (fs0 & x0 & p & d0 & Hfs0 & Hx0 & Hp & Hd0 & ->).
  rewrite Hfs in Hfs0. injection Hfs0 as <-.
  set (fs1 := if decide (length p = length d0) then fs else <[x := p]> fs).
  assert (data_dir (if decide (length p = length d0) then w
                    else set_data_dir (Some (<[x := p]> fs)) w) = Some fs1) as Hfs1.
  { subst fs1. by case_decide. }
  assert (∀ name, name ≠ x → fs1 !! name = fs !! name) as Hsame.
  { intros name Hne. subst fs1. case_decide; [done|]. by apply lookup_insert_ne. }
  assert (fs1 !! x = Some (if decide (length p = length d0) then d0 else p)) as Hx1.
  { subst fs1. case_decide; [done|]. apply lookup_insert_eq. }
  destruct (IH _ _ Hl Hfs1 Hnd) as (fs' & Hfs' & Hframe & Hrep).
  exists fs'. split_and!; [done| |].
  - intros name [Hne Hnl]%not_elem_of_cons. by rewrite Hframe, Hsame.
  - intros r [->|Hr]%elem_of_cons.
    + exists x0. split; [done|]. intros _. exists p, d0.
      by rewrite Hframe, Hx1.
    + destruct (Hrep r Hr) as (r0 & Hr0 & Hcase). exists r0. split; [done|].
      intros [Hne Hnl]%not_elem_of_cons.
      destruct (Hcase Hnl) as (p' & d0' & Hp' & Hd0' & Hr').
      exists p', d0'. rewrite <- (Hsame _ Hne).
      rewrite <- (Hsame r) by (intros ->; done). done.
Qed.

(** X19: after a [sync_replication] that returns on a mapping with
    replica ids, every replica file on disk (apart from names that begin
    with ['-']) has the size of the primary file named after its first
    character; it is either the file it was before, or a copy of that
    primary. *)
Theorem sync_replication_repairs (w w' : world) :
  sync_replication w = (Ok tt, w') →
  (get_replication_ids w).1 ≠ Ok [] →
  ∀ r d, has_dash r = true → (data_dir w' ≫= (.!! r)) = Some d →
    ∃ r0, first_char r = Ok r0 ∧
      (has_dash r0 = false →
       ∃ p, (data_dir w' ≫= (.!! (r0 +:+ ".txt"))) = Some p ∧
            length d = length p ∧
            (d = p ∨ (data_dir w ≫= (.!! r)) = Some d)).
Proof.
  intros Hrun Hreps r d Hr Hd. unfold sync_replication in Hrun.
  apply bind_Ok in Hrun as (ids & w0 & Hids & Hrun).
  unfold get_replication_ids, gets in Hids, Hreps. injection Hids as <- <-.
  simpl in Hreps.
  destruct (sorted _) as [|id ids] eqn:Hs in Hrun; [by rewrite Hs in Hreps|].
  apply bind_Ok in Hrun as ([] & wm & Hprim & Hrun).
  pose proof (run_preserved _ _ _ _ _ (verify_primaries_keeps_replicas r Hr) Hprim)
    as Hmid. cbv beta in Hmid.
  unfold verify_replications in Hrun.
  apply bind_Ok in Hrun as (names & w1 & Hls & Hrun).
  unfold listdir in Hls. destruct (data_dir wm) as [fsm|] eqn:Hfsm; [|done].
  injection Hls as <- <-.
  destruct (verify_replications_loop _ fsm _ _ Hrun Hfsm)
    as (fs' & Hfs' & Hframe & Hrep).
  { apply NoDup_filter, NoDup_fst_map_to_list. }
  rewrite Hfs' in *. simpl in Hd, Hmid |- *.
  assert (r ∈ filter (λ filename, has_dash filename) (map_to_list fsm).*1) as Hin.
  { destruct (decide (r ∈ filter (λ filename, has_dash filename) (map_to_list fsm).*1))
      as [|Hno]; [done|].
    rewrite Hframe in Hd by done. apply list_elem_of_filter. split; [by rewrite Hr|].
    apply files_elem. by eexists. }
  destruct (Hrep r Hin) as (r0 & Hr0 & Hcase). exists r0. split; [done|].
  intros Hd0.
  assert (r0 +:+ ".txt" ∉ filter (λ filename, has_dash filename) (map_to_list fsm).*1)
    as Hnot.
  { intros [Hdash _]%list_elem_of_filter. unfold has_dash in Hdash, Hd0.
    rewrite contains_app, Hd0 in Hdash. done. }
  destruct (Hcase Hnot) as (p & d0 & Hp & Hfd0 & Hfr).
  exists p. rewrite Hframe by done. split; [done|].
  rewrite Hfr in Hd. injection Hd as <-. case_decide as Hlen.
  - split; [done|]. right. by rewrite <- Hmid.
  - split; [done|]. by left.
Qed.

Lemma sync_replication_repairs_witness :
  let w := set_data_dir
             (Some (list_to_map [("0.txt", txt "ab"); ("0-1.txt", txt "a");
                                 ("1.txt", txt "cd"); ("1-1.txt", txt "cd")]))
             two_shards_one_level in
  let w' := after sync_replication w in
  ∃ r0, first_char "0-1.txt" = Ok r0 ∧
    (has_dash r0 = false →
     ∃ p, (data_dir w' ≫= (.!! (r0 +:+ ".txt"))) = Some p ∧
          length (txt "ab") = length p ∧
          (txt "ab" = p ∨ (data_dir w ≫= (.!! "0-1.txt")) = Some (txt "ab"))).
Proof.
  intros w w'. apply (sync_replication_repairs w w').
  - vm_compute. reflexivity.
  - intros H. vm_compute in H. discriminate.
  - reflexivity.
  - vm_compute. reflexivity.
Defined.

(** ** What [remove_replication] removes *)

Lemma replica_key_of_shard_inj (k k' level : nat) :
  replica_key (py_str k) level = replica_key (py_str k') level → k = k'.
Proof.
  unfold replica_key. intros H%(f_equal (split_head "-"%char)).
  change (λ a b, a +:+ "-" +:+ b) with (λ a b, a +:+ String "-" b) in H.
  change (py_str k +:+ "-" +:+ py_str level)
    with (py_str k +:+ String "-" (py_str level)) in H.
  change (py_str k' +:+ "-" +:+ py_str level)
    with (py_str k' +:+ String "-" (py_str level)) in H.
  rewrite !split_head_app in H by apply py_str_no_dash.
  by apply py_str_inj.
Qed.

Lemma string_length_append (s t : string) :
  String.length (s +:+ t) = String.length s + String.length t.
Proof. induction s as [|a s IH]; simpl; [done|]. by rewrite IH. Qed.

Lemma append_inj_r (s1 s2 t : string) : s1 +:+ t = s2 +:+ t → s1 = s2.
Proof.
  intros H. assert (String.length s1 = String.length s2) as Hlen.
  { apply (f_equal String.length) in H. rewrite !string_length_append in H. lia. }
  revert s2 H Hlen. induction s1 as [|a s1 IH]; intros [|b s2] H Hlen; try done.
  simpl in *. injection H as -> H. f_equal. apply IH; [done|lia].
Qed.

(** The body of the loop of [remove_replication]. *)
Lemma remove_replication_step (level key : nat) (w w1 : world) :
  (let name := py_str key +:+ "-" +:+ py_str level in
   ex <- path_exists (name +:+ ".txt") ;;
   if ex : bool then remove (name +:+ ".txt") ;; mapping_pop name
   else ret tt) w = (Ok tt, w1) →
  let name := replica_key (py_str key) level in
  match data_dir w ≫= (.!! (name +:+ ".txt")) with
  | Some _ =>
      ∃ fs, data_dir w = Some fs ∧ is_Some (mapping w !! name) ∧
        w1 = set_mapping (delete name (mapping w))
               (set_data_dir (Some (delete (name +:+ ".txt") fs)) w)
  | None => w1 = w
  end.
Proof.
  cbv zeta. fold (replica_key (py_str key) level).
  set (name := replica_key (py_str key) level). intros Hrun.
  apply bind_Ok in Hrun as (ex & w2 & Hex & Hrun).
  unfold path_exists, gets in Hex. injection Hex as <- <-.
  destruct (data_dir w) as [fs|] eqn:Hfs; simpl; [|by injection Hrun as <-].
  destruct (fs !! (name +:+ ".txt")) as [d|] eqn:Hd.
  - rewrite bool_decide_eq_true_2 in Hrun by by eexists.
    apply bind_Ok in Hrun as ([] & w2 & Hrm & Hpop).
    unfold remove in Hrm. rewrite Hfs, Hd in Hrm.
    rewrite bool_decide_eq_true_2 in Hrm by by eexists. injection Hrm as <-.
    unfold mapping_pop in Hpop. cbn [mapping set_data_dir] in Hpop.
    destruct (mapping w !! name) as [e|] eqn:He; [|done].
    injection Hpop as <-. exists fs. split_and!; [done|by eexists|by destruct w].
  - rewrite bool_decide_eq_false_2 in Hrun by (by intros []).
    by injection Hrun as <-.
Qed.

Lemma remove_replication_loop (level : nat) (l : list nat) (w w' : world) :
  let key_of k := replica_key (py_str k) level in
  let file_of k := replica_key (py_str k) level +:+ ".txt" in
  for_each l (λ key,
    let name := py_str key +:+ "-" +:+ py_str level in
    ex <- path_exists (name +:+ ".txt") ;;
    if ex : bool then remove (name +:+ ".txt") ;; mapping_pop name
    else ret tt) w = (Ok tt, w') →
  (∀ n, (data_dir w' ≫= (.!! n))
        = if decide (n ∈ file_of <$> l) then None else data_dir w ≫= (.!! n)) ∧
  (∀ key, mapping w' !! key
          = if decide (key ∈ key_of <$>
                         filter (λ k, is_Some (data_dir w ≫= (.!! file_of k))) l)
            then None else mapping w !! key) ∧
  replication_level w' = replication_level w ∧
  mapfile w' = mapfile w ∧
  last_char_position w' = last_char_position w.
Proof.
  intros key_of file_of. revert w. induction l as [|x l IH]; intros w Hrun.
  { injection Hrun as <-. split_and!; try done. }
  cbn [for_each] in Hrun. apply bind_Ok in Hrun as ([] & w1 & Hstep & Hl).
  apply remove_replication_step in Hstep. cbv zeta in Hstep.
  fold (file_of x) (key_of x) in Hstep.
  destruct (IH _ Hl) as (Hf & Hm & Hrl & Hmf & Hpos). clear IH.
  assert (∀ k, file_of k = file_of x → k = x) as Hinj.
  { intros k Hk%append_inj_r. by apply replica_key_of_shard_inj in Hk. }
  destruct (data_dir w ≫= (.!! file_of x)) as [d|] eqn:Hx.
  - destruct Hstep as (fs & Hfs & HK & ->).
    cbn [data_dir mapping set_mapping set_data_dir replication_level mapfile
         last_char_position] in *.
    assert (∀ n, data_dir w ≫= (.!! n) = fs !! n) as Hw
      by (intros n; by rewrite Hfs).
    split_and!; try done.
    + intros n. rewrite Hf, fmap_cons, Hw. cbn [mbind option_bind].
      destruct (decide (n = file_of x)) as [->|Hne].
      * rewrite lookup_delete_eq. rewrite (decide_True (P:=_ ∈ _ :: _)) by left.
        by case_decide.
      * rewrite lookup_delete_ne by done. apply decide_ext.
        rewrite elem_of_cons. split; [by right|by intros [?|?]].
    + intros key. rewrite Hm, filter_cons.
      rewrite (decide_True (P:=is_Some _)) by (by rewrite Hx).
      rewrite fmap_cons.
      destruct (decide (key = key_of x)) as [->|Hne].
      * rewrite lookup_delete_eq. rewrite (decide_True (P:=_ ∈ _ :: _)) by left.
        by case_decide.
      * rewrite lookup_delete_ne by done. apply decide_ext.
        rewrite elem_of_cons, !list_elem_of_fmap.
        split.
        -- intros (k & -> & [Hs Hk]%list_elem_of_filter). right. exists k.
           split; [done|]. apply list_elem_of_filter. split; [|done].
           rewrite Hw. cbn [mbind option_bind] in Hs.
           destruct (decide (file_of k = file_of x)) as [Heq|Hne'].
           ++ rewrite Heq, lookup_delete_eq in Hs. by destruct Hs.
           ++ by rewrite lookup_delete_ne in Hs.
        -- intros [->|(k & -> & [Hs Hk]%list_elem_of_filter)]; [done|].
           exists k. split; [done|]. apply list_elem_of_filter. split; [|done].
           rewrite Hw in Hs. cbn [mbind option_bind].
           rewrite lookup_delete_ne; [done|]. intros Heq%symmetry%Hinj. by subst.
  - subst w1. split_and!; try done.
    + intros n. rewrite Hf, fmap_cons.
      destruct (decide (n = file_of x)) as [->|Hne].
      * rewrite Hx. rewrite (decide_True (P:=_ ∈ _ :: _)) by left. by case_decide.
      * apply decide_ext. rewrite elem_of_cons. split; [by right|by intros [?|?]].
    + intros key. rewrite Hm, filter_cons.
      rewrite (decide_False (P:=is_Some _)); [done|]. rewrite Hx. by intros [].
Qed.

(** [sync_replication] creates no replica file. *)
Lemma sync_replication_keeps_absent (n : string) (w w' : world) :
  has_dash n = true → sync_replication w = (Ok tt, w') →
  (data_dir w ≫= (.!! n)) = None → (data_dir w' ≫= (.!! n)) = None.
Proof.
  intros Hn Hrun Hnone. unfold sync_replication in Hrun.
  apply bind_Ok in Hrun as (ids & w0 & Hids & Hrun).
  unfold get_replication_ids, gets in Hids. injection Hids as <- <-.
  destruct (sorted _) as [|id ids] in Hrun; [by injection Hrun as <-|].
  apply bind_Ok in Hrun as ([] & wm & Hprim & Hrun).
  pose proof (run_preserved _ _ _ _ _ (verify_primaries_keeps_replicas n Hn) Hprim)
    as Hmid. cbv beta in Hmid. rewrite Hnone in Hmid.
  unfold verify_replications in Hrun.
  apply bind_Ok in Hrun as (names & w1 & Hls & Hrun).
  unfold listdir in Hls. destruct (data_dir wm) as [fsm|] eqn:Hfsm; [|done].
  injection Hls as <- <-.
  destruct (verify_replications_loop _ fsm _ _ Hrun Hfsm) as (fs' & Hfs' & Hframe & _).
  { apply NoDup_filter, NoDup_fst_map_to_list. }
  rewrite Hfs'. simpl in Hmid |- *. rewrite Hframe; [done|].
  intros [_ [d Hd]%files_elem]%list_elem_of_filter. congruence.
Qed.

(** X20: a [remove_replication] that returns has found a level other
    than 0 in the counter, which it leaves as it is; for every shard id
    the replica file of that level is gone afterwards; the entry of every
    replica whose file it found is gone too, and every other entry is the
    one of the persisted map. *)
Theorem remove_replication_removes (w w' : world) :
  remove_replication w = (Ok tt, w') →
  let level := replication_level w in
  let w1 := set_mapping (default ∅ (mapfile w)) w in
  let key_of k := replica_key (py_str k) level in
  let file_of k := replica_key (py_str k) level +:+ ".txt" in
  ∃ keys,
    shard_keys w1 = (Ok keys, w1) ∧ level ≠ 0 ∧
    replication_level w' = level ∧
    (∀ k, k ∈ keys → (data_dir w' ≫= (.!! file_of k)) = None) ∧
    (∀ k, k ∈ keys → is_Some (data_dir w ≫= (.!! file_of k)) →
       mapping w' !! key_of k = None) ∧
    (∀ key,
       (∀ k, k ∈ keys → is_Some (data_dir w ≫= (.!! file_of k)) →
          key ≠ key_of k) →
       mapping w' !! key = default ∅ (mapfile w) !! key).
Proof.
  intros Hrun level w1 key_of file_of. unfold remove_replication in Hrun.
  rewrite reload_run in Hrun. fold w1 in Hrun.
  pose proof (preserves_run shard_keys w1 shard_keys_reads) as Hk.
  destruct (shard_keys w1).1 as [keys|e];
    [|by rewrite (bind_raise _ _ _ _ _ Hk) in Hrun].
  rewrite (bind_run _ _ _ _ _ Hk) in Hrun. exists keys. split; [done|].
  apply bind_Ok in Hrun as (lvl & w2 & Hlvl & Hrun).
  unfold gets in Hlvl. injection Hlvl as <- <-.
  change (replication_level w1) with level in Hrun.
  apply bind_Ok in Hrun as ([] & w3 & Hbody & Hsync).
  case_decide as Hlevel; [|done]. split; [done|].
  apply bind_Ok in Hbody as ([] & w2 & Hloop & Hmap).
  unfold write_map, modify in Hmap. injection Hmap as <-.
  destruct (remove_replication_loop _ _ _ _ Hloop) as (Hf & Hm & Hrl & _).
  pose proof (run_preserved replication_level _ _ _ _
                (preserves_sync_replication replication_level ltac:(done)) Hsync) as Hl'.
  pose proof (run_preserved mapping _ _ _ _
                (preserves_sync_replication mapping ltac:(done)) Hsync) as Hm'.
  cbn [replication_level mapping set_mapfile] in Hl', Hm'.
  split_and!.
  - by rewrite Hl', Hrl.
  - intros k Hin. eapply sync_replication_keeps_absent; [|exact Hsync|].
    + unfold file_of, replica_key, has_dash. rewrite !contains_app. simpl.
      by rewrite orb_true_r.
    + cbn [data_dir set_mapfile]. rewrite Hf, decide_True; [done|].
      apply list_elem_of_fmap. by exists k.
  - intros k Hin Hsome. rewrite Hm', Hm, decide_True; [done|].
    apply list_elem_of_fmap. exists k. split; [done|].
    by apply list_elem_of_filter.
  - intros key Hkey. rewrite Hm', Hm, decide_False; [done|].
    intros (k & -> & [Hs Hin]%list_elem_of_filter)%list_elem_of_fmap.
    by apply (Hkey k).
Qed.

Lemma remove_replication_removes_witness :
  let w := one_shard_two_levels in
  let w' := after remove_replication w in
  ∃ keys,
    shard_keys (set_mapping (default ∅ (mapfile w)) w)
    = (Ok keys, set_mapping (default ∅ (mapfile w)) w) ∧
    replication_level w ≠ 0 ∧
    replication_level w' = replication_level w ∧
    (∀ k, k ∈ keys →
       (data_dir w' ≫= (.!! (replica_key (py_str k) (replication_level w) +:+ ".txt")))
       = None) ∧
    (∀ k, k ∈ keys →
       is_Some (data_dir w ≫=
                  (.!! (replica_key (py_str k) (replication_level w) +:+ ".txt"))) →
       mapping w' !! replica_key (py_str k) (replication_level w) = None) ∧
    (∀ key,
       (∀ k, k ∈ keys →
          is_Some (data_dir w ≫=
                     (.!! (replica_key (py_str k) (replication_level w) +:+ ".txt"))) →
          key ≠ replica_key (py_str k) (replication_level w)) →
       mapping w' !! key = default ∅ (mapfile w) !! key).
Proof.
  intros w w'. apply (remove_replication_removes w w'). vm_compute. reflexivity.
Defined.

(** ** What the reconciliation restores *)

Lemma map_M_lift_run {A C} (g : A → result C) (l : list A) :
  ∃ r, ∀ w, map_M (λ x, lift (g x)) l w = (r, w).
Proof.
  induction l as [|x l [r IH]]; [by eexists|]. cbn [map_M]. unfold bind, lift at 1.
  destruct (g x) as [y|e]; [|by eexists].
  destruct r as [ys|e].
  - exists (Ok (y :: ys)). intros w. by rewrite IH.
  - exists (Raise e). intros w. by rewrite IH.
Qed.

(** The level read from the ids depends on the mapping only. *)
Lemma find_highest_replication_level_mapping (w1 w2 : world) :
  mapping w1 = mapping w2 →
  (find_highest_replication_level w1).1 = (find_highest_replication_level w2).1.
Proof.
  intros Hm. unfold find_highest_replication_level, bind, get_replication_ids, gets,
    mapping_keys. rewrite Hm.
  destruct (sorted _) as [|id ids]; [done|].
  destruct (map_M_lift_run last_char (id :: ids)) as [r Hr]. rewrite !Hr.
  destruct r as [lasts|e]; [|done]. unfold lift.
  by destruct (str_max lasts).
Qed.

(** The loop of [verify_primaries]. *)
Lemma verify_primaries_loop (primary_ids ids : list string) (level : nat)
    (w w' : world) :
  (find_highest_replication_level w).1 = Ok level →
  Forall (λ id, has_dash id = false) ids → NoDup ids →
  for_each ids (λ id,
    if decide (id ∈ primary_ids) then ret tt
    else
      level <- find_highest_replication_level ;;
      copyfile (id +:+ "-" +:+ py_str level +:+ ".txt") (id +:+ ".txt")) w
  = (Ok tt, w') →
  mapping w' = mapping w ∧
  (∀ id, id ∈ ids → id ∉ primary_ids →
     is_Some (data_dir w ≫= (.!! replica_file id level)) ∧
     (data_dir w' ≫= (.!! (id +:+ ".txt")))
     = (data_dir w ≫= (.!! replica_file id level))) ∧
  (∀ name, (∀ id, id ∈ ids → id ∉ primary_ids → name ≠ id +:+ ".txt") →
     (data_dir w' ≫= (.!! name)) = (data_dir w ≫= (.!! name))).
Proof.
  intros Hlevel Hdash Hnd. revert w Hlevel.
  induction ids as [|x ids IH]; intros w Hlevel Hrun.
  { injection Hrun as <-. split_and!; try done. by intros id ?%elem_of_nil. }
  apply Forall_cons in Hdash as [Hdx Hdash].
  apply NoDup_cons in Hnd as [Hx Hnd].
  cbn [for_each] in Hrun. apply bind_Ok in Hrun as ([] & w1 & Hstep & Hl).
  destruct (decide (x ∈ primary_ids)) as [Hin|Hnin].
  { injection Hstep as <-. destruct (IH Hdash Hnd w Hlevel Hl) as (Hm & Hc & Hf).
    split_and!; [done| |].
    - intros id [->|Hid]%elem_of_cons Hno; [done|]. by apply Hc.
    - intros name Hname. apply Hf. intros id Hid. apply Hname. by right. }
  apply bind_Ok in Hstep as (lvl & w2 & Hlvl & Hcopy).
  pose proof (preserves_run _ w find_highest_replication_level_reads) as Hreads.
  pose proof Hlevel as Hlevel'. rewrite Hlvl in Hreads, Hlevel'.
  simpl in Hreads, Hlevel'. injection Hreads as ->. injection Hlevel' as ->.
  unfold copyfile in Hcopy. apply bind_Ok in Hcopy as (d & w3 & Hread & Hwrite).
  unfold read_bytes in Hread. fold (replica_file x level) in Hread.
  destruct (data_dir w) as [fs|] eqn:Hfs; [|done]. simpl in Hread.
  destruct (fs !! replica_file x level) as [d'|] eqn:Hd; [|done].
  injection Hread as <- <-. unfold write_file in Hwrite. rewrite Hfs in Hwrite.
  injection Hwrite as <-.
  destruct (IH Hdash Hnd (set_data_dir (Some (<[x +:+ ".txt" := d']> fs)) w))
    as (Hm & Hc & Hf); [|done|].
  { rewrite <- Hlevel. by apply find_highest_replication_level_mapping. }
  cbn [data_dir mapping set_data_dir mbind option_bind] in *.
  assert (∀ id, has_dash id = false →
            <[x +:+ ".txt" := d']> fs !! replica_file id level
            = fs !! replica_file id level) as Hrep.
  { intros id Hid. apply lookup_insert_ne. intros Heq.
    pose proof (dashed_name id (py_str level +:+ ".txt")) as Hd1.
    fold (replica_file id level) in Hd1. rewrite <- Heq in Hd1.
    unfold has_dash in Hd1, Hdx. rewrite contains_app, Hdx in Hd1. done. }
  rewrite Forall_forall in Hdash.
  split_and!; [done| |].
  - intros id [->|Hid]%elem_of_cons Hno.
    + split; [by eexists|]. rewrite Hf; [by rewrite lookup_insert_eq|].
      intros id Hid _ Heq%append_inj_r. by subst.
    + destruct (Hc id Hid Hno) as [Hs Hcopy]. rewrite Hrep in Hs, Hcopy by auto.
      done.
  - intros name Hname. rewrite Hf.
    + apply lookup_insert_ne. intros <-. apply (Hname x); [left|done|done].
    + intros id Hid. apply Hname. by right.
Qed.

Lemma map_M_lift_elem {A C} (g : A → result C) (l : list A) (r : list C)
    (w w' : world) (y : C) :
  map_M (λ x, lift (g x)) l w = (Ok r, w') →
  y ∈ r ↔ ∃ x, x ∈ l ∧ g x = Ok y.
Proof.
  revert r w w'. induction l as [|x l IH]; intros r w w' Hrun.
  { injection Hrun as <- <-. split; [by intros ?%elem_of_nil|].
    by intros (x & ?%elem_of_nil & _). }
  cbn [map_M] in Hrun. apply bind_Ok in Hrun as (y0 & w1 & Hy0 & Hrun).
  apply bind_Ok in Hrun as (ys & w2 & Hys & Hrun).
  unfold lift in Hy0. injection Hy0 as Hy0 <-. injection Hrun as <- <-.
  rewrite elem_of_cons, (IH _ _ _ Hys). split.
  - intros [->|(x' & Hx' & Hg)]; [exists x; split; [left|done]|].
    exists x'. split; [by right|done].
  - intros (x' & [->|Hx']%elem_of_cons & Hg); [left; congruence|].
    right. by exists x'.
Qed.

(** X21: after a [sync_replication] that returns on a mapping with
    replica ids, every shard id that is not the first character of the
    name of a primary file on disk has its primary file written from its
    replica of the level that [find_highest_replication_level] reads. *)
Theorem sync_replication_restores (w w' : world) (fs : gmap string text)
    (level : nat) (id : string) :
  sync_replication w = (Ok tt, w') →
  (get_replication_ids w).1 ≠ Ok [] →
  (find_highest_replication_level w).1 = Ok level →
  data_dir w = Some fs →
  is_Some (mapping w !! id) → has_dash id = false →
  Forall (λ name, has_dash name = true ∨ first_char name ≠ Ok id)
    (map_to_list fs).*1 →
  is_Some (fs !! replica_file id level) ∧
  (data_dir w' ≫= (.!! (id +:+ ".txt"))) = fs !! replica_file id level.
Proof.
  intros Hrun Hreps Hlevel Hfs Hkey Hid Hnames. unfold sync_replication in Hrun.
  apply bind_Ok in Hrun as (reps & w0 & Hr & Hrun).
  unfold get_replication_ids, gets in Hr, Hreps. injection Hr as <- <-.
  simpl in Hreps.
  destruct (sorted _) as [|rep reps] eqn:Hs in Hrun; [by rewrite Hs in Hreps|].
  apply bind_Ok in Hrun as ([] & wm & Hprim & Hrun).
  unfold verify_primaries in Hprim.
  apply bind_Ok in Hprim as (ids & w1 & Hids & Hprim).
  pose proof (shard_ids_no_dash w ids) as Hdash.
  unfold get_shard_ids, gets in Hids, Hdash. injection Hids as <- <-.
  specialize (Hdash eq_refl).
  apply bind_Ok in Hprim as (names & w1 & Hls & Hprim).
  unfold listdir in Hls. rewrite Hfs in Hls. injection Hls as <- <-.
  apply bind_Ok in Hprim as (primary_ids & w1 & Hpids & Hloop).
  destruct (map_M_lift_run first_char
              (filter (λ filename, ¬ has_dash filename) (map_to_list fs).*1))
    as [r Hr]. rewrite Hr in Hpids. injection Hpids as -> <-.
  destruct (verify_primaries_loop primary_ids _ level w wm Hlevel Hdash)
    as (_ & Hc & _); [|exact Hloop|].
  { eapply (NoDup_Permutation_proper _ _ (sorted_perm _)).
    apply NoDup_filter, NoDup_fst_map_to_list. }
  destruct (Hc id) as [Hsome Hcopy].
  { rewrite sorted_perm. apply list_elem_of_filter.
    split; [rewrite Hid; exact (λ H, H)|].
    by apply mapping_keys_elem. }
  { rewrite (map_M_lift_elem first_char _ _ w w id (Hr w)).
    intros (name & [Hdn Hin]%list_elem_of_filter & Hfc).
    rewrite Forall_forall in Hnames. destruct (Hnames _ Hin) as [Hd|Hne]; [|done].
    by rewrite Hd in Hdn. }
  rewrite Hfs in Hsome, Hcopy. simpl in Hsome, Hcopy. split; [done|].
  rewrite <- Hcopy.
  unfold verify_replications in Hrun.
  apply bind_Ok in Hrun as (names & w1 & Hls & Hrun).
  unfold listdir in Hls. destruct (data_dir wm) as [fsm|] eqn:Hfsm; [|done].
  injection Hls as <- <-.
  destruct (verify_replications_loop _ fsm _ _ Hrun Hfsm) as (fs' & Hfs' & Hframe & _).
  { apply NoDup_filter, NoDup_fst_map_to_list. }
  rewrite Hfs'. simpl. apply Hframe.
  intros [Hd _]%list_elem_of_filter. unfold has_dash in Hd, Hid.
  rewrite contains_app, Hid in Hd. done.
Qed.

Lemma sync_replication_restores_witness :
  let fs : gmap string text :=
    list_to_map [("0-1.txt", txt "ab"); ("1.txt", txt "cd"); ("1-1.txt", txt "cd")] in
  let w := set_data_dir (Some fs) two_shards_one_level in
  let w' := after sync_replication w in
  is_Some (fs !! replica_file "0" 1) ∧
  (data_dir w' ≫= (.!! ("0" +:+ ".txt"))) = fs !! replica_file "0" 1.
Proof.
  intros fs w w'. apply (sync_replication_restores w w' fs 1 "0").
  - vm_compute. reflexivity.
  - intros H. vm_compute in H. discriminate.
  - vm_compute. reflexivity.
  - reflexivity.
  - vm_compute. by eexists.
  - reflexivity.
  - vm_compute.
    repeat (constructor; [first [left; reflexivity | right; discriminate]|]).
    constructor.
Defined.

(** ** Loading the module *)

Lemma shard_keys_no_dash (w : world) (n : nat) :
  (∀ key, is_Some (mapping w !! key) ↔ ∃ i, i < n ∧ key = py_str i) →
  Forall (λ key, has_dash key = false) (mapping_keys w).
Proof.
  intros Hkeys. apply Forall_forall.
  intros key (i & _ & ->)%mapping_keys_elem%Hkeys. apply py_str_no_dash.
Qed.

(** Reading the level and reconciling when no key has a ['-']. *)
Lemma level_and_sync_without_replicas (w : world) :
  Forall (λ key, has_dash key = false) (mapping_keys w) →
  (find_highest_replication_level ;; sync_replication) w = (Ok tt, w).
Proof.
  intros Hkeys.
  assert (get_replication_ids w = (Ok [], w)) as Hnone.
  { unfold get_replication_ids, gets. rewrite filter_none; [done|].
    eapply Forall_impl; [exact Hkeys|]. intros key ->. exact (λ H, H). }
  rewrite (bind_run _ _ w 0 w).
  - unfold sync_replication. by rewrite (bind_run _ _ _ _ _ Hnone).
  - unfold find_highest_replication_level. by rewrite (bind_run _ _ _ _ _ Hnone).
Qed.

(** X22: loading the module where [chapter2.txt] exists and no map file
    does builds five shards that read back as the text read from the
    file, whatever the data directory held; loading it again returns
    without changing the map file or any file of the data directory. *)
Theorem run_module_twice (cwd : gmap string text)
    (dir : option (gmap string text)) (stored : text) :
  cwd !! filename = Some stored →
  ∃ w,
    run_module cwd None dir = (Ok tt, w) ∧
    get_shard_ids w = (Ok (py_str <$> seq 0 5), w) ∧
    load_data_from_file cwd None = Ok (universal_newlines stored) ∧
    load_data_from_shards w = (Ok (universal_newlines stored), w) ∧
    run_module cwd (mapfile w) (data_dir w)
    = (Ok tt, World (mapping w) 0 0 (mapfile w) (data_dir w)).
Proof.
  intros Hfile. set (data := universal_newlines stored).
  assert (load_data_from_file cwd None = Ok data) as Hread.
  { unfold load_data_from_file. by rewrite Hfile. }
  assert (lift (load_data_from_file cwd None) = lift (Ok data)) as Hload
    by (by rewrite Hread).
  destruct (build_shards_world 5 data (World ∅ 0 0 None dir))
    as (pieces & w & _ & Hbuild & Hkeys & _ & _ & _ & _ & Hmf); [done|lia|].
  destruct (build_then_ids 5 data (World ∅ 0 0 None dir))
    as (pieces1 & w1 & _ & Hbuild1 & Hids & _ & Hdata); [done|lia|].
  rewrite Hbuild in Hbuild1. injection Hbuild1 as <-.
  specialize (Hdata (universal_newlines_no_CR stored)).
  destruct (init_after_build 5 data (World ∅ 0 0 None dir))
    as (w1 & Hbuild1 & Hinit); [done|lia|].
  rewrite Hbuild in Hbuild1. injection Hbuild1 as <-.
  pose proof (shard_keys_no_dash w 5 Hkeys) as Hundashed.
  exists w. split_and!; [|done|done|done|].
  - unfold run_module.
    change (init None dir) with (Ok tt, World ∅ 0 0 None dir).
    rewrite Hload. unfold lift at 1.
    rewrite (bind_run _ _ _ _ _ eq_refl), (bind_run _ _ _ _ _ Hbuild).
    by apply level_and_sync_without_replicas.
  - unfold run_module. rewrite Hinit, Hload. unfold lift at 1.
    rewrite (bind_run _ _ _ _ _ eq_refl).
    set (w2 := World (mapping w) 0 0 (mapfile w) (data_dir w)).
    assert (build_shards 5 data w2 = (Ok (Some already_sharded), w2)) as Hagain.
    { unfold build_shards, bind, gets. rewrite decide_True; [done|].
      simpl. intros Hempty. destruct (Hkeys (py_str 0)) as [_ Hzero].
      rewrite Hempty, lookup_empty in Hzero.
      destruct Hzero as [? [=]]. exists 0. split; [lia|done]. }
    rewrite (bind_run _ _ _ _ _ Hagain).
    by apply level_and_sync_without_replicas.
Qed.

Lemma run_module_twice_witness :
  ∃ w,
    run_module {[ filename := ten_chars ]} None None = (Ok tt, w) ∧
    get_shard_ids w = (Ok (py_str <$> seq 0 5), w) ∧
    load_data_from_file {[ filename := ten_chars ]} None
    = Ok (universal_newlines ten_chars) ∧
    load_data_from_shards w = (Ok (universal_newlines ten_chars), w) ∧
    run_module {[ filename := ten_chars ]} (mapfile w) (data_dir w)
    = (Ok tt, World (mapping w) 0 0 (mapfile w) (data_dir w)).
Proof.
  apply (run_module_twice {[ filename := ten_chars ]} None ten_chars).
  vm_compute. reflexivity.
Defined.
